(** * Word layout and dwell-time aggregation of [mouse_viz.py]

    A shallow embedding of the two functions of
    [JATOS data parsing tools/mouse_viz.py] that carry the algorithmic content
    of the repository: [get_word_positions], which replays the word wrapping
    of the rendered text, and [compute_word_durations], which buckets the
    intervals of a pointer stream into the word boxes.

    Numbers. Pixel coordinates, font metrics and millisecond timestamps are
    modelled as [Z]. A duration starts as the float [0.0] and only has
    integer intervals added to it, so it is the float of an integer, which
    [Z] stands for; Python's [round] leaves such values as they are.

    Errors. The Python exceptions the two functions can raise on well-typed
    input are the constructors of [exn]; a call is a value of [result]. *)

From Stdlib Require Import ZArith String Ascii List Bool Sorted Lia.
From Stdlib Require Import Decimal DecimalString DecimalNat.
From stdpp Require Import base tactics option list gmap strings.

Local Open Scope string_scope.
Local Open Scope list_scope.
Local Open Scope Z_scope.

(** ** Constants (lines 10-13) *)

Definition FONT_SIZE : Z := 18.
Definition LINE_HEIGHT : Z := 25.
Definition HORIZONTAL_PADDING : Z := 30.
Definition VERTICAL_PADDING_TOP : Z := 20.

(** ** Exceptions and results *)

Inductive exn : Type :=
| ValueError (msg : string)
| IndexError
| KeyError (key : nat).

Inductive result (A : Type) : Type :=
| Ok (a : A)
| Raise (e : exn).

Arguments Ok {A} a.
Arguments Raise {A} e.

#[global] Instance result_ret : MRet result := fun _ a => Ok a.
#[global] Instance result_bind : MBind result := fun _ _ f r =>
  match r with
  | Ok a => f a
  | Raise e => Raise e
  end.

(** ** Data model *)

(** The font is an object with a [getbbox] method returning
    [(left, top, right, bottom)]. *)
Record Font : Type := { getbbox : string -> Z * Z * Z * Z }.

(** [bbox[2] - bbox[0]] *)
Definition bbox_width (bbox : Z * Z * Z * Z) : Z :=
  let '(x0, _, x1, _) := bbox in x1 - x0.

Definition text_width (font : Font) (s : string) : Z :=
  bbox_width (getbbox font s).

(** The dict appended to [word_positions] (lines 93-100). *)
Record WordBox : Type := {
  word : string;
  word_index : nat;
  x_start : Z;
  x_end : Z;
  y_position : Z;
  line_index : nat
}.

(** One entry of [mouse_tracking_data]. *)
Record Sample : Type := {
  sample_x : Z;
  sample_y : Z;
  timestamp : Z
}.

(** One row of the reading-trials data frame; [df_reading] is the list of
    its rows. *)
Record Trial : Type := {
  mouse_tracking_data : list Sample;
  trial_canvas_width : Z;
  trial_canvas_height : Z;
  text_content : string
}.

(** One row of the table [compute_word_durations] returns. *)
Record DurationRow : Type := {
  row_word_number : nat;
  row_word : string;
  row_duration_ms : Z;
  row_x_start : Z;
  row_x_end : Z;
  row_y_position : Z;
  row_line_number : nat
}.

(** ** Python built-ins *)

(** Truth value of a string: non-empty. *)
Definition truthy (s : string) : bool :=
  match s with
  | EmptyString => false
  | String _ _ => true
  end.

(** [s.split(' ')]: cut at every single space, empty tokens kept. *)
Fixpoint split_space (s : string) : list string :=
  match s with
  | EmptyString => [EmptyString]
  | String c rest =>
      if Ascii.eqb c " "%char then EmptyString :: split_space rest
      else match split_space rest with
           | tok :: toks => String c tok :: toks
           | [] => [String c EmptyString]
           end
  end.

(** The number of spaces of a string. *)
Fixpoint count_spaces (s : string) : nat :=
  match s with
  | EmptyString => 0%nat
  | String c rest =>
      ((if Ascii.eqb c " "%char then 1 else 0) + count_spaces rest)%nat
  end.

(** [round(v, ndigits)] on a value that is an integer. *)
Definition round (v : Z) (ndigits : nat) : Z := v.

(** [df.iloc[i]] on the rows. *)
Definition iloc {A : Type} (rows : list A) (i : nat) : result A :=
  match rows !! i with
  | Some r => Ok r
  | None => Raise IndexError
  end.

(** ** Data-frame accessors (lines 32-38, 105-106) *)

Definition get_mouse_data (df_reading : list Trial) (trial_num : nat)
  : result (list Sample) :=
  let mouse_data :=
    filter (fun r => (0 < length (mouse_tracking_data r))%nat) df_reading in
  r ← iloc mouse_data trial_num;
  mret (mouse_tracking_data r).

Definition get_canvas_dimensions (df_reading : list Trial) (trial_num : nat)
  : result (Z * Z) :=
  trial ← iloc df_reading trial_num;
  mret (trial_canvas_width trial, trial_canvas_height trial).

Definition get_text_content (df_reading : list Trial) (trial_num : nat)
  : result string :=
  trial ← iloc df_reading trial_num;
  mret (text_content trial).

(** ** [get_word_positions] (lines 59-103) *)

(** The variables the loop over the words updates. *)
Record Layout : Type := {
  word_positions : list WordBox;
  current_line_text : string;
  current_x : Z;
  cur_line_index : nat
}.

(** One pass of the loop body (lines 75-101). *)
Definition place_word (font : Font)
    (text_start_x text_start_y available_width : Z)
    (st : Layout) (w : string) : Layout :=
  let test_line :=
    (current_line_text st
       +:+ (if truthy (current_line_text st) then " " else ""))
      +:+ w in
  let test_width := text_width font test_line in
  let '(line, line_text, cx) :=
    if (available_width <? test_width) && truthy (current_line_text st)
    then (S (cur_line_index st), w, text_start_x)
    else (cur_line_index st, test_line,
          if truthy (current_line_text st)
          then text_start_x + text_width font (current_line_text st +:+ " ")
          else current_x st) in
  let word_width := text_width font w in
  let y := text_start_y + Z.of_nat line * LINE_HEIGHT in
  {| word_positions :=
       word_positions st ++
         [ {| word := w;
              word_index := length (word_positions st);
              x_start := cx;
              x_end := cx + word_width;
              y_position := y;
              line_index := line |} ];
     current_line_text := line_text;
     current_x := cx + word_width;
     cur_line_index := line |}.

Definition get_word_positions (text : string) (canvas_width : Z) (font : Font)
    (horizontal_padding vertical_padding_top line_height : Z)
  : list WordBox :=
  let text_start_x := horizontal_padding / 2 in
  let text_start_y := vertical_padding_top + 10 in
  let available_width := canvas_width - horizontal_padding in
  let words := split_space text in
  word_positions
    (fold_left (place_word font text_start_x text_start_y available_width)
       words
       {| word_positions := [];
          current_line_text := "";
          current_x := text_start_x;
          cur_line_index := 0 |}).

(** A font that measures every character as [px] pixels wide. *)
Definition fixed_width_font (px : Z) : Font :=
  {| getbbox := fun s => (0, 0, px * Z.of_nat (String.length s), FONT_SIZE) |}.

(** ** [compute_word_durations] (lines 108-165) *)

(** A [for] loop whose body may raise: the state is threaded through the
    passes and the first exception ends the loop. *)
Fixpoint for_each {A St : Type} (body : St -> A -> result St)
    (xs : list A) (s : St) : result St :=
  match xs with
  | [] => Ok s
  | x :: rest => s' ← body s x; for_each body rest s'
  end.

(** A list comprehension whose element expression may raise. *)
Fixpoint map_result {A B : Type} (f : A -> result B) (xs : list A)
  : result (list B) :=
  match xs with
  | [] => Ok []
  | x :: rest => b ← f x; bs ← map_result f rest; mret (b :: bs)
  end.

(** Line 123: [{i: 0.0 for i in range(len(word_positions))}]. *)
Definition init_durations (n : nat) : gmap nat Z :=
  list_to_map (map (fun i => (i, 0)) (seq 0 n)).

(** The two chained comparisons of lines 148 and 149. *)
Definition x_in_range (x_tolerance x : Z) (wp : WordBox) : bool :=
  (x_start wp - x_tolerance <=? x) && (x <=? x_end wp + x_tolerance).

Definition y_in_range (y_tolerance y : Z) (wp : WordBox) : bool :=
  (y_position wp - y_tolerance <=? y) && (y <=? y_position wp + y_tolerance).

(** The inner loop (lines 147-151): scan the boxes in list order, add [dt]
    under the key of the first box that holds the point, and [break]. *)
Fixpoint attribute (word_positions : list WordBox) (x_tolerance y_tolerance : Z)
    (x y dt : Z) (word_durations : gmap nat Z) : result (gmap nat Z) :=
  match word_positions with
  | [] => Ok word_durations
  | wp :: rest =>
      if x_in_range x_tolerance x wp then
        if y_in_range y_tolerance y wp then
          match word_durations !! word_index wp with
          | Some d => Ok (<[word_index wp := d + dt]> word_durations)
          | None => Raise (KeyError (word_index wp))
          end
        else attribute rest x_tolerance y_tolerance x y dt word_durations
      else attribute rest x_tolerance y_tolerance x y dt word_durations
  end.

(** Lines 141-151, for one pair [(tracking[i], tracking[i + 1])]. *)
Definition interval_body (word_positions : list WordBox)
    (x_tolerance y_tolerance : Z) (word_durations : gmap nat Z)
    (point next_point : Sample) : result (gmap nat Z) :=
  let x := sample_x point in
  let y := sample_y point in
  let dt := timestamp next_point - timestamp point in
  if (dt <=? 0) || (1000 <? dt) then Ok word_durations
  else attribute word_positions x_tolerance y_tolerance x y dt word_durations.

(** Lines 137-151: [for i in range(n - 1)]. *)
Definition track_loop (tracking : list Sample) (word_positions : list WordBox)
    (x_tolerance y_tolerance : Z) (word_durations : gmap nat Z)
  : result (gmap nat Z) :=
  let n := length tracking in
  for_each
    (fun durs i =>
       match tracking !! i, tracking !! (i + 1)%nat with
       | Some point, Some next_point =>
           interval_body word_positions x_tolerance y_tolerance durs
             point next_point
       | _, _ => Raise IndexError
       end)
    (seq 0 (n - 1)) word_durations.

(** The row built when there are fewer than two samples (lines 127-135). *)
Definition zero_row (wp : WordBox) : DurationRow :=
  {| row_word_number := word_index wp;
     row_word := word wp;
     row_duration_ms := 0;
     row_x_start := x_start wp;
     row_x_end := x_end wp;
     row_y_position := y_position wp;
     row_line_number := line_index wp |}.

(** The row built after the loop (lines 155-163). *)
Definition duration_row (word_durations : gmap nat Z) (wp : WordBox)
  : result DurationRow :=
  match word_durations !! word_index wp with
  | Some d =>
      Ok {| row_word_number := word_index wp;
            row_word := word wp;
            row_duration_ms := round d 2;
            row_x_start := round (x_start wp) 1;
            row_x_end := round (x_end wp) 1;
            row_y_position := round (y_position wp) 1;
            row_line_number := line_index wp |}
  | None => Raise (KeyError (word_index wp))
  end.

(** Lines 122-165: what the function does with the stream it has fetched. *)
Definition word_durations_table (tracking : list Sample)
    (word_positions : list WordBox) (x_tolerance y_tolerance : Z)
  : result (list DurationRow) :=
  let word_durations := init_durations (length word_positions) in
  let n := length tracking in
  if (n <? 2)%nat then Ok (map zero_row word_positions)
  else
    durs ← track_loop tracking word_positions x_tolerance y_tolerance
             word_durations;
    map_result (duration_row durs) word_positions.

(** The keyword arguments that default to [None] are options. *)
Definition compute_word_durations (df_reading : list Trial)
    (canvas_width : option Z) (text : option string)
    (word_positions : option (list WordBox)) (x_tolerance y_tolerance : Z)
  : result (list DurationRow) :=
  match canvas_width with
  | None => Raise (ValueError "canvas_width must be provided.")
  | Some _ =>
  match text with
  | None => Raise (ValueError "text must be provided.")
  | Some _ =>
  match word_positions with
  | None => Raise (ValueError "word_positions must be provided.")
  | Some wps =>
      tracking ← get_mouse_data df_reading 0;
      word_durations_table tracking wps x_tolerance y_tolerance
  end end end.

(** ** The loop over the trials of [build_data] (lines 206-222)

    Reading the files and selecting the reading trials is left out; this is
    what is done with the reading trials of one participant. *)

Record TrialEntry : Type := {
  entry_participant_id : string;
  entry_trial_num : nat;
  entry_text_content : string;
  entry_mouse_data : list Sample;
  entry_canvas_width : Z;
  entry_canvas_height : Z;
  entry_word_positions : list WordBox;
  entry_word_durations : list DurationRow
}.

(** One pass of the loop (lines 207-222). *)
Definition build_trial (participant_id : string)
    (reading_trials : list Trial) (font : Font)
    (trial : nat) : result TrialEntry :=
  dims ← get_canvas_dimensions reading_trials trial;
  text_content ← get_text_content reading_trials trial;
  mouse_data ← get_mouse_data reading_trials trial;
  let word_positions :=
    get_word_positions text_content dims.1 font
      HORIZONTAL_PADDING VERTICAL_PADDING_TOP LINE_HEIGHT in
  word_durations ←
    compute_word_durations reading_trials (Some dims.1) (Some text_content)
      (Some word_positions) 5 15;
  mret {| entry_participant_id := participant_id;
          entry_trial_num := trial;
          entry_text_content := text_content;
          entry_mouse_data := mouse_data;
          entry_canvas_width := dims.1;
          entry_canvas_height := dims.2;
          entry_word_positions := word_positions;
          entry_word_durations := word_durations |}.

(** [for trial in range(len(reading_trials))]. *)
Definition build_trials (participant_id : string)
    (reading_trials : list Trial) (font : Font) : result (list TrialEntry) :=
  map_result (build_trial participant_id reading_trials font)
    (seq 0 (length reading_trials)).

(** ** Notions used to state the properties *)

(** The pairs [(tracking[i], tracking[i + 1])] in the order of [i]. *)
Definition intervals (tracking : list Sample) : list (Sample * Sample) :=
  zip tracking (drop 1 tracking).

(** [dt] of a pair of samples (line 142). *)
Definition interval_dt (pq : Sample * Sample) : Z :=
  timestamp pq.2 - timestamp pq.1.

(** An interval the filter of line 144 lets through. *)
Definition valid_interval (pq : Sample * Sample) : bool :=
  (0 <? interval_dt pq) && (interval_dt pq <=? 1000).

(** The point lies in the box widened by the two tolerances. *)
Definition in_box (x_tolerance y_tolerance x y : Z) (wp : WordBox) : bool :=
  x_in_range x_tolerance x wp && y_in_range y_tolerance y wp.

(** A row of the returned table carries the fields of a box. *)
Definition row_of_box (r : DurationRow) (wp : WordBox) : Prop :=
  row_word_number r = word_index wp /\
  row_word r = word wp /\
  row_x_start r = x_start wp /\
  row_x_end r = x_end wp /\
  row_y_position r = y_position wp /\
  row_line_number r = line_index wp.

(** Every [word_index] is a key of the dict of line 123. *)
Definition indices_in_range (word_positions : list WordBox) : Prop :=
  Forall (fun wp => (word_index wp < length word_positions)%nat) word_positions.

(** The row has no pointer samples. *)
Definition untracked (r : Trial) : Prop := mouse_tracking_data r = [].

(** ** The aggregation in the words of the specification (section 4.2)

    For boxes numbered by their position, the specification attributes each
    interval with [0 < dt <= 1000] to the first box, in list order, whose
    widened region holds the position of the interval's first sample. The
    three definitions below say this without a loop or a dict; the table
    the code builds is compared with them further down. *)

(** The position in the list of the first box that holds the point. *)
Fixpoint first_hit (word_positions : list WordBox)
    (x_tolerance y_tolerance x y : Z) : option nat :=
  match word_positions with
  | [] => None
  | wp :: rest =>
      if in_box x_tolerance y_tolerance x y wp then Some 0%nat
      else S <$> first_hit rest x_tolerance y_tolerance x y
  end.

(** What one interval gives to the box at position [j]. *)
Definition contribution (word_positions : list WordBox)
    (x_tolerance y_tolerance : Z) (j : nat) (pq : Sample * Sample) : Z :=
  if valid_interval pq then
    if decide (first_hit word_positions x_tolerance y_tolerance
                 (sample_x pq.1) (sample_y pq.1) = Some j)
    then interval_dt pq else 0
  else 0.

(** What a list of intervals gives to the box at position [j]. *)
Definition dwell_of (word_positions : list WordBox)
    (x_tolerance y_tolerance : Z) (j : nat)
    (pairs : list (Sample * Sample)) : Z :=
  foldr (fun pq acc =>
           contribution word_positions x_tolerance y_tolerance j pq + acc)
    0 pairs.

(** The row the specification expects for a box. *)
Definition dwell_row (tracking : list Sample) (word_positions : list WordBox)
    (x_tolerance y_tolerance : Z) (wp : WordBox) : DurationRow :=
  {| row_word_number := word_index wp;
     row_word := word wp;
     row_duration_ms :=
       dwell_of word_positions x_tolerance y_tolerance (word_index wp)
         (intervals tracking);
     row_x_start := x_start wp;
     row_x_end := x_end wp;
     row_y_position := y_position wp;
     row_line_number := line_index wp |}.

(** The boxes are numbered by their position, as [get_word_positions]
    numbers them. *)
Definition numbered (word_positions : list WordBox) : Prop :=
  map word_index word_positions = seq 0 (length word_positions).

(** ** Concrete data for the scenarios *)

(** The box of the spec's second scenario. *)
Definition the_box : WordBox :=
  {| word := "the"; word_index := 0; x_start := 15; x_end := 45;
     y_position := 30; line_index := 0 |}.

Definition sample_at (x y t : Z) : Sample :=
  {| sample_x := x; sample_y := y; timestamp := t |}.

Definition trial_with (tracking : list Sample) : Trial :=
  {| mouse_tracking_data := tracking; trial_canvas_width := 200;
     trial_canvas_height := 100; text_content := "the" |}.

(** ** Notions used for the further properties of the layout *)

(** The font has no kerning: widths add up under concatenation. *)
Definition additive (font : Font) : Prop :=
  forall s t,
    text_width font (s +:+ t) = text_width font s + text_width font t.

(** Every box of the list is related to the right edge and the line of the
    box before it, the first one to [px] and [pl]. *)
Fixpoint follows (R : Z -> nat -> WordBox -> Prop) (px : Z) (pl : nat)
    (boxes : list WordBox) : Prop :=
  match boxes with
  | [] => True
  | b :: rest => R px pl b /\ follows R (x_end b) (line_index b) rest
  end.

(** A box stays on the line of the box before it or opens the next line at
    the left margin. *)
Definition line_step (text_start_x : Z) (px : Z) (pl : nat) (b : WordBox)
  : Prop :=
  line_index b = pl \/ (line_index b = S pl /\ x_start b = text_start_x).

(** The three ways a box is placed after a right edge [px] on line [pl]:
    on an empty line, at the margin; after the line's text and one space,
    and then it fits; or on the next line, and then it did not fit. *)
Definition wrap_step (font : Font) (text_start_x available_width : Z)
    (px : Z) (pl : nat) (b : WordBox) : Prop :=
  (line_index b = pl /\ x_start b = px /\ px = text_start_x) \/
  (line_index b = pl /\ x_start b = px + text_width font " " /\
   x_end b <= text_start_x + available_width) \/
  (line_index b = S pl /\ x_start b = text_start_x /\
   text_start_x + available_width
   < px + text_width font " " + text_width font (word b)).

(** The boxes of ["aa bb cc"] under a font 10 pixels a character, with
    [horizontal_padding = 30] and [vertical_padding_top = 20]: on a canvas
    70 wide every word opens a line, on a canvas 200 wide all share one. *)
Definition box_at (w : string) (i : nat) (xs xe y : Z) (l : nat) : WordBox :=
  {| word := w; word_index := i; x_start := xs; x_end := xe;
     y_position := y; line_index := l |}.

(** ** Notions used for the further properties of the aggregation *)

(** The sum of the [duration_ms] column of a table. *)
Definition total_duration (table : list DurationRow) : Z :=
  foldr (fun r acc => row_duration_ms r + acc) 0 table.

(** The time of the valid intervals of a stream. *)
Definition valid_time (pairs : list (Sample * Sample)) : Z :=
  foldr (fun pq acc =>
           (if valid_interval pq then interval_dt pq else 0) + acc) 0 pairs.

(** The time of the valid intervals whose first sample lies in some box. *)
Definition hit_time (word_positions : list WordBox)
    (x_tolerance y_tolerance : Z) (pairs : list (Sample * Sample)) : Z :=
  foldr (fun pq acc =>
           (if valid_interval pq then
              match first_hit word_positions x_tolerance y_tolerance
                      (sample_x pq.1) (sample_y pq.1) with
              | Some _ => interval_dt pq
              | None => 0
              end
            else 0) + acc) 0 pairs.

(** The same sample, [c] milliseconds later. *)
Definition delay (c : Z) (s : Sample) : Sample :=
  {| sample_x := sample_x s; sample_y := sample_y s;
     timestamp := timestamp s + c |}.

(** Two pairs of samples the loop body cannot tell apart. *)
Definition same_interval (pq pq' : Sample * Sample) : Prop :=
  sample_x pq.1 = sample_x pq'.1 /\ sample_y pq.1 = sample_y pq'.1 /\
  interval_dt pq = interval_dt pq'.

(** The row has pointer samples. *)
Definition tracked (r : Trial) : Prop := mouse_tracking_data r <> [].

(** The sum of [f j] over the positions [js]. *)
Definition sum_over (f : nat -> Z) (js : list nat) : Z :=
  foldr (fun j acc => f j + acc) 0 js.

(** ** Notions used for the properties of the loop over the trials *)

(** The stream of the first row of the frame. *)
Definition first_stream (reading_trials : list Trial) : list Sample :=
  match reading_trials with
  | r :: _ => mouse_tracking_data r
  | [] => []
  end.

(** The entry of row number [i]: its own text, canvas and stream, the boxes
    of its text, and the time the stream [stream0] spends on these boxes. *)
Definition trial_entry (participant_id : string) (font : Font)
    (stream0 : list Sample) (i : nat) (row : Trial) : TrialEntry :=
  let boxes :=
    get_word_positions (text_content row) (trial_canvas_width row) font
      HORIZONTAL_PADDING VERTICAL_PADDING_TOP LINE_HEIGHT in
  {| entry_participant_id := participant_id;
     entry_trial_num := i;
     entry_text_content := text_content row;
     entry_mouse_data := mouse_tracking_data row;
     entry_canvas_width := trial_canvas_width row;
     entry_canvas_height := trial_canvas_height row;
     entry_word_positions := boxes;
     entry_word_durations := map (dwell_row stream0 boxes 5 15) boxes |}.

(** ** Names of files and folders

    The string computations of [get_participant_id] (mouse_viz.py, lines
    25-26, and its earlier copy mouse-viz.py, lines 12-13) and of
    [collect_data_files] (data_wrangling.py, lines 45, 49 and 60). *)

(** [c in s] for a character. *)
Fixpoint occurs (c : ascii) (s : string) : bool :=
  match s with
  | EmptyString => false
  | String a rest => Ascii.eqb a c || occurs c rest
  end.

(** [s.split(sep)] for a one-character separator. *)
Fixpoint split_on (sep : ascii) (s : string) : list string :=
  match s with
  | EmptyString => [EmptyString]
  | String c rest =>
      if Ascii.eqb c sep then EmptyString :: split_on sep rest
      else match split_on sep rest with
           | tok :: toks => String c tok :: toks
           | [] => [String c EmptyString]
           end
  end.

(** [xs[i]] on a list, for [i >= 0]. *)
Definition item {A : Type} (xs : list A) (i : nat) : result A :=
  match xs !! i with
  | Some a => Ok a
  | None => Raise IndexError
  end.

(** [xs[-1]]. *)
Definition item_last {A : Type} (xs : list A) : result A :=
  match last xs with
  | Some a => Ok a
  | None => Raise IndexError
  end.

(** [str(n)], and what an f-string puts for an integer [n >= 0]. *)
Definition str_of_nat (n : nat) : string :=
  NilEmpty.string_of_uint (Nat.to_uint n).

(** [s.startswith(p)]. *)
Definition startswith (s p : string) : bool := String.prefix p s.

(** data_wrangling.py, line 49: [study_folder.name.split('_')[2]]. *)
Definition folder_participant_id (folder_name : string) : result string :=
  item (split_on "_" folder_name) 2.

(** data_wrangling.py, line 60: [f"{participant_id}_{component_num}.txt"]. *)
Definition new_filename (participant_id : string) (component_num : nat)
  : string :=
  participant_id +:+ "_" +:+ str_of_nat component_num +:+ ".txt".

(** mouse_viz.py, lines 25-26: [pathlib.Path(raw).name.split('_')[0]].
    [path_name] stands for [pathlib]'s [Path(raw).name]. *)
Definition get_participant_id (path_name : string -> string) (raw : string)
  : result string :=
  item (split_on "_" (path_name raw)) 0.

(** mouse-viz.py, lines 12-13: [raw.split('/')[-1].split('_')[0]]. *)
Module Earlier.
Definition get_participant_id (raw : string) : result string :=
  name ← item_last (split_on "/" raw);
  item (split_on "_" name) 0.
End Earlier.

(** ** The computations of [plot_text_heatmap] (lines 227-299)

    The drawing itself is matplotlib's; what the function computes before
    it draws is the preview of the text in the title, the range the
    durations are normalised by, and the rectangle of each word. *)

(** Line 238: [text[:40] + '...' if len(text) > 40 else text]. A Python
    [str] is a sequence of Unicode code points, and [len] and slicing count
    code points; the text is the list of its code points here, and 46 is
    the code point of the full stop. *)
Definition text_preview (text : list N) : list N :=
  if (40 <? length text)%nat then take 40 text ++ [46%N; 46%N; 46%N]
  else text.

(** [df['duration_ms'].max()] and [.min()]; [None] stands for the [nan] of
    an empty column. *)
Definition column_max (column : list Z) : option Z :=
  match column with
  | [] => None
  | d :: rest => Some (foldl Z.max d rest)
  end.

Definition column_min (column : list Z) : option Z :=
  match column with
  | [] => None
  | d :: rest => Some (foldl Z.min d rest)
  end.

(** Line 260: [max_dur - min_dur if max_dur != min_dur else 1]. *)
Definition dur_range (max_dur min_dur : Z) : Z :=
  if negb (max_dur =? min_dur) then max_dur - min_dur else 1.

(** Lines 266-270: the corner [(x, y)], the width and the height of the
    rectangle drawn for a row. *)
Definition heatmap_rect (r : DurationRow) : Z * Z * Z * Z :=
  (row_x_start r, row_y_position r - 20, row_x_end r - row_x_start r, 24).

(** ** [load_font] (lines 40-56)

    [truetype] stands for [ImageFont.truetype], with [None] for the
    [IOError] or [OSError] the loop catches, and [load_default] for
    [ImageFont.load_default()]. The warning printed is left out. *)

Definition font_paths : list string :=
  [ "arial.ttf";
    "C:/Windows/Fonts/arial.ttf";
    "/usr/share/fonts/truetype/msttcorefonts/Arial.ttf";
    "/usr/share/fonts/truetype/dejavu/DejaVuSans.ttf";
    "/System/Library/Fonts/Helvetica.ttc";
    "/Library/Fonts/Arial.ttf" ].

(** The loop of lines 50-54 over the paths still to try. *)
Fixpoint try_fonts (truetype : string -> Z -> option Font)
    (load_default : Font) (paths : list string) (size : Z) : Font :=
  match paths with
  | [] => load_default
  | path :: rest =>
      match truetype path size with
      | Some font => font
      | None => try_fonts truetype load_default rest size
      end
  end.

Definition load_font (truetype : string -> Z -> option Font)
    (load_default : Font) (size : Z) : Font :=
  try_fonts truetype load_default font_paths size.

(** [' '.join(tokens)], the inverse of [split(' ')]. *)
Fixpoint join_space (tokens : list string) : string :=
  match tokens with
  | [] => ""
  | [tok] => tok
  | tok :: rest => tok +:+ String " " (join_space rest)
  end.

(** * Properties of [get_word_positions] *)

Section Layout_facts.
Variable font : Font.
Variables text_start_x text_start_y available_width : Z.

Let place := place_word font text_start_x text_start_y available_width.

(** What one pass of the loop appends, and how it moves the line index. *)
Lemma place_word_appends (st : Layout) (w : string) :
  exists b,
    word_positions (place st w) = word_positions st ++ [b] /\
    word b = w /\
    word_index b = length (word_positions st) /\
    x_end b = x_start b + text_width font w /\
    y_position b = text_start_y + Z.of_nat (line_index b) * LINE_HEIGHT /\
    line_index b = cur_line_index (place st w) /\
    (cur_line_index st <= cur_line_index (place st w))%nat.
Proof.
  unfold place, place_word.
  destruct ((available_width <? _) && truthy (current_line_text st));
    cbn; eexists; (split; [reflexivity|]); cbn; repeat split; lia.
Qed.

(** The invariant of the whole loop, started from any state. *)
Lemma layout_loop_invariant (ws : list string) (st : Layout) :
  exists new,
    word_positions (fold_left place ws st) = word_positions st ++ new /\
    map word new = ws /\
    map word_index new = seq (length (word_positions st)) (length ws) /\
    Forall (fun b =>
              x_end b = x_start b + text_width font (word b) /\
              y_position b
                = text_start_y + Z.of_nat (line_index b) * LINE_HEIGHT /\
              (cur_line_index st <= line_index b)%nat) new /\
    StronglySorted le (map line_index new).
Proof.
  revert st. induction ws as [|w ws IH]; intros st.
  - exists []. cbn. rewrite app_nil_r. repeat split; constructor.
  - cbn [fold_left]. fold (place st w).
    destruct (place_word_appends st w)
      as (b & Hb & Hw & Hi & Hx & Hy & Hl & Hle).
    destruct (IH (place st w)) as (new & Hnew & Hws & Hidx & Hall & Hsort).
    exists (b :: new). rewrite Hnew, Hb, <- app_assoc. cbn.
    rewrite Hb, length_app in Hidx. cbn in Hidx.
    replace (length (word_positions st) + 1)%nat
      with (S (length (word_positions st))) in Hidx by lia.
    repeat split.
    + congruence.
    + congruence.
    + constructor.
      * rewrite Hw. repeat split; [assumption .. | lia].
      * eapply Forall_impl; [exact Hall|].
        cbn. intros c (? & ? & ?). repeat split; [assumption .. | lia].
    + constructor; [exact Hsort|].
      rewrite Forall_map. eapply Forall_impl; [exact Hall|].
      cbn. intros c (_ & _ & ?). lia.
Qed.
End Layout_facts.

(** Two fonts that measure every string alike lay the text out alike. *)
Lemma get_word_positions_font_ext (font1 font2 : Font) text canvas_width
    horizontal_padding vertical_padding_top line_height :
  (forall s, text_width font1 s = text_width font2 s) ->
  get_word_positions text canvas_width font1
    horizontal_padding vertical_padding_top line_height
  = get_word_positions text canvas_width font2
      horizontal_padding vertical_padding_top line_height.
Proof.
  intros Hw. unfold get_word_positions. cbv zeta.
  generalize ({| word_positions := []; current_line_text := "";
                 current_x := horizontal_padding / 2;
                 cur_line_index := 0 |}).
  induction (split_space text) as [|w ws IH]; intros st; [reflexivity|].
  cbn [fold_left]. rewrite IH. do 2 f_equal.
  unfold place_word. rewrite !Hw. reflexivity.
Qed.

(** [split(' ')] yields one token more than there are spaces. *)
Example split_space_keeps_empty_tokens :
  split_space " a  b " = [""; "a"; ""; "b"; ""] /\ split_space "" = [""].
Proof. split; reflexivity. Qed.

Lemma split_space_length (s : string) :
  length (split_space s) = S (count_spaces s).
Proof.
  induction s as [|c s IH]; [reflexivity|].
  cbn. destruct (Ascii.eqb c " "%char); cbn.
  - now rewrite IH.
  - destruct (split_space s); cbn in *; lia.
Qed.

(** A line index never decreases from one box to the next (first half of
    the monotonic line breaking property; not affected by [line_height]). *)
Lemma get_word_positions_line_index_monotone text canvas_width font
    horizontal_padding vertical_padding_top line_height (i : nat) b b' :
  let boxes := get_word_positions text canvas_width font
                 horizontal_padding vertical_padding_top line_height in
  boxes !! i = Some b -> boxes !! S i = Some b' ->
  (line_index b <= line_index b')%nat.
Proof.
  intros boxes. subst boxes. unfold get_word_positions. cbv zeta.
  match goal with |- context [fold_left ?f ?ws ?st] =>
    destruct (layout_loop_invariant font (horizontal_padding / 2)
                (vertical_padding_top + 10)
                (canvas_width - horizontal_padding) ws st)
      as (new & -> & _ & _ & _ & Hsort)
  end.
  cbn [word_positions app]. intros Hb Hb'.
  assert (Hi : map line_index new !! i = Some (line_index b))
    by (rewrite list_lookup_fmap, Hb; reflexivity).
  assert (Hi' : map line_index new !! S i = Some (line_index b'))
    by (rewrite list_lookup_fmap, Hb'; reflexivity).
  clear Hb Hb'. revert i Hi Hi'.
  induction Hsort as [|a l Hs IH Hall]; intros i Hi Hi'; [discriminate|].
  destruct i as [|i].
  - cbn in Hi. injection Hi as <-. cbn in Hi'.
    rewrite Forall_forall in Hall. apply Hall.
    eapply list_elem_of_lookup_2. exact Hi'.
  - eapply IH; eassumption.
Qed.

(** The vertical position the code computes uses the module constant
    [LINE_HEIGHT], whatever [line_height] is passed. *)
Lemma get_word_positions_y_position text canvas_width font
    horizontal_padding vertical_padding_top line_height b :
  b ∈ get_word_positions text canvas_width font
        horizontal_padding vertical_padding_top line_height ->
  y_position b
  = vertical_padding_top + 10 + Z.of_nat (line_index b) * LINE_HEIGHT.
Proof.
  unfold get_word_positions. cbv zeta.
  match goal with |- context [fold_left ?f ?ws ?st] =>
    destruct (layout_loop_invariant font (horizontal_padding / 2)
                (vertical_padding_top + 10)
                (canvas_width - horizontal_padding) ws st)
      as (new & -> & _ & _ & Hall & _)
  end.
  cbn [word_positions app]. intros Hin.
  rewrite Forall_forall in Hall.
  now destruct (Hall _ Hin) as (_ & -> & _).
Qed.

(** [line_height] is a parameter of the function that no line of it reads. *)
Lemma get_word_positions_line_height_unused text canvas_width font
    horizontal_padding vertical_padding_top line_height line_height' :
  get_word_positions text canvas_width font
    horizontal_padding vertical_padding_top line_height
  = get_word_positions text canvas_width font
      horizontal_padding vertical_padding_top line_height'.
Proof. reflexivity. Qed.

(** The boxes are the tokens, in order and numbered from 0, and each is as
    wide as its own word measures. *)
Lemma get_word_positions_tokens text canvas_width font
    horizontal_padding vertical_padding_top line_height :
  let boxes := get_word_positions text canvas_width font
                 horizontal_padding vertical_padding_top line_height in
  map word boxes = split_space text /\
  map word_index boxes = seq 0 (length boxes) /\
  Forall (fun b => x_end b = x_start b + text_width font (word b)) boxes.
Proof.
  intros boxes. subst boxes. unfold get_word_positions. cbv zeta.
  match goal with |- context [fold_left ?f ?ws ?st] =>
    destruct (layout_loop_invariant font (horizontal_padding / 2)
                (vertical_padding_top + 10)
                (canvas_width - horizontal_padding) ws st)
      as (new & -> & Hws & Hidx & Hall & _)
  end.
  cbn [word_positions app length] in *.
  assert (Hlen : length new = length (split_space text))
    by (rewrite <- Hws; now rewrite length_map).
  repeat split.
  - exact Hws.
  - now rewrite Hlen.
  - eapply Forall_impl; [exact Hall|]. now intros b (? & _).
Qed.

(** C2. For every text, canvas width and font, [get_word_positions] returns
    one box per token of [text.split(' ')]: as many boxes as tokens (one more
    than the text has spaces), the boxes carry the tokens in order, the
    [word_index] values are [0, 1, 2, ...] in output order, and the box of an
    empty token is degenerate: its width is the width the font gives the
    empty string, that is zero. *)
Theorem get_word_positions_one_box_per_token text canvas_width font
    horizontal_padding vertical_padding_top line_height :
  let boxes := get_word_positions text canvas_width font
                 horizontal_padding vertical_padding_top line_height in
  length boxes = length (split_space text) /\
  length boxes = S (count_spaces text) /\
  map word boxes = split_space text /\
  map word_index boxes = seq 0 (length boxes) /\
  (text_width font "" = 0 ->
   forall b, b ∈ boxes -> word b = "" -> x_end b = x_start b).
Proof.
  intros boxes.
  destruct (get_word_positions_tokens text canvas_width font
              horizontal_padding vertical_padding_top line_height)
    as (Hws & Hidx & Hall).
  fold boxes in Hws, Hidx, Hall.
  assert (Hlen : length boxes = length (split_space text))
    by (rewrite <- Hws; now rewrite length_map).
  repeat split; try assumption.
  - rewrite Hlen. apply split_space_length.
  - intros Hempty b Hin Hb. rewrite Forall_forall in Hall.
    rewrite (Hall _ Hin), Hb, Hempty. lia.
Qed.

Lemma get_word_positions_one_box_per_token_witness :
  text_width (fixed_width_font 10) "" = 0 /\
  forall b,
    b ∈ get_word_positions " a  b " 50 (fixed_width_font 10) 30 20 25 ->
    word b = "" -> x_end b = x_start b.
Proof.
  split; [reflexivity|].
  destruct (get_word_positions_one_box_per_token
              " a  b " 50 (fixed_width_font 10) 30 20 25)
    as (_ & _ & _ & _ & H).
  exact (H eq_refl).
Defined.

(** C6, at an input where the code departs from it. With
    [line_height = 30] the second box of ["aa bb"] lies on line 1, so its
    [y_position] should be [20 + 10 + 1 * 30 = 60]; the code returns
    [20 + 10 + 1 * LINE_HEIGHT = 55], because line 91 multiplies by the
    module constant and not by the parameter. *)
Theorem get_word_positions_ignores_line_height :
  let boxes := get_word_positions "aa bb" 60 (fixed_width_font 10) 30 20 30 in
  map line_index boxes = [0%nat; 1%nat] /\
  map y_position boxes = [30; 55] /\
  55 <> 20 + 10 + 1 * 30.
Proof. repeat split. discriminate. Qed.

(** C7. With the text ["the cat sat"], a canvas 200 wide, a font that
    measures every character as 10 pixels, [horizontal_padding = 30],
    [vertical_padding_top = 20] and [line_height = 25], the function returns
    exactly three boxes, all on line 0; ["the"] spans 15 to 45 and ["sat"]
    starts at [15 + width("the cat ") = 95]. *)
Theorem get_word_positions_the_cat_sat font :
  (forall s, text_width font s = 10 * Z.of_nat (String.length s)) ->
  get_word_positions "the cat sat" 200 font 30 20 25
  = [ {| word := "the"; word_index := 0; x_start := 15; x_end := 45;
         y_position := 30; line_index := 0 |};
      {| word := "cat"; word_index := 1; x_start := 55; x_end := 85;
         y_position := 30; line_index := 0 |};
      {| word := "sat"; word_index := 2;
         x_start := 15 + text_width font "the cat "; x_end := 125;
         y_position := 30; line_index := 0 |} ] /\
  15 + text_width font "the cat " = 95.
Proof.
  intros Hfont.
  rewrite (get_word_positions_font_ext font (fixed_width_font 10)).
  - rewrite Hfont. split; reflexivity.
  - intros s. rewrite Hfont. unfold text_width. cbn. lia.
Qed.

Lemma get_word_positions_the_cat_sat_witness :
  (forall s, text_width (fixed_width_font 10) s
             = 10 * Z.of_nat (String.length s)) /\
  15 + text_width (fixed_width_font 10) "the cat " = 95.
Proof.
  assert (H : forall s, text_width (fixed_width_font 10) s
                        = 10 * Z.of_nat (String.length s))
    by (intros s; unfold text_width; cbn; lia).
  split; [exact H|].
  exact (proj2 (get_word_positions_the_cat_sat (fixed_width_font 10) H)).
Defined.

(** * Properties of [compute_word_durations] *)

(** ** The loops *)

Lemma for_each_lookup {A St : Type} (l : list A) (f : St -> A -> result St)
    (body : St -> nat -> result St) (k : nat) (s : St) :
  (forall i a s', l !! i = Some a -> body s' (k + i)%nat = f s' a) ->
  for_each body (seq k (length l)) s = for_each f l s.
Proof.
  revert k s. induction l as [|a l IH]; intros k s Hbody; [reflexivity|].
  cbn. rewrite <- (Hbody 0%nat a s eq_refl), Nat.add_0_r.
  destruct (body s k) as [s'|e]; cbn; [|reflexivity].
  apply IH. intros i a' s'' Hi.
  rewrite <- (Hbody (S i) a' s'' Hi). f_equal. lia.
Qed.

Lemma for_each_app {A St : Type} (f : St -> A -> result St)
    (l1 l2 : list A) s :
  for_each f (l1 ++ l2) s = (s' ← for_each f l1 s; for_each f l2 s').
Proof.
  revert s. induction l1 as [|a l1 IH]; intros s; [reflexivity|].
  cbn. destruct (f s a); cbn; [apply IH | reflexivity].
Qed.

Lemma intervals_lookup (tracking : list Sample) (i : nat) p q :
  intervals tracking !! i = Some (p, q) <->
  tracking !! i = Some p /\ tracking !! (i + 1)%nat = Some q.
Proof.
  unfold intervals. rewrite lookup_zip_with_Some, Nat.add_comm.
  setoid_rewrite lookup_drop. split.
  - intros (x & y & [= -> ->] & ? & ?). auto.
  - intros (? & ?). eauto.
Qed.

Lemma intervals_length (tracking : list Sample) :
  length (intervals tracking) = (length tracking - 1)%nat.
Proof. unfold intervals. rewrite length_zip, length_drop. lia. Qed.

Lemma intervals_cons (p q : Sample) (rest : list Sample) :
  intervals (p :: q :: rest) = (p, q) :: intervals (q :: rest).
Proof. reflexivity. Qed.

(** The indexed loop of lines 137-151 never indexes out of range: it runs
    the body on the consecutive pairs, in order. *)
Lemma track_loop_intervals tracking word_positions x_tolerance y_tolerance
    (word_durations : gmap nat Z) :
  track_loop tracking word_positions x_tolerance y_tolerance word_durations
  = for_each
      (fun durs pq =>
         interval_body word_positions x_tolerance y_tolerance durs pq.1 pq.2)
      (intervals tracking) word_durations.
Proof.
  unfold track_loop. cbv zeta. rewrite <- intervals_length.
  apply for_each_lookup. intros i [p q] s' Hi.
  apply intervals_lookup in Hi as [Hp Hq]. cbn [Nat.add].
  now rewrite Hp, Hq.
Qed.

(** ** The scan over the boxes *)

Section Attribute.
Variables x_tolerance y_tolerance x y dt : Z.

Let hit := in_box x_tolerance y_tolerance x y.
Let scan wps durs := attribute wps x_tolerance y_tolerance x y dt durs.

Lemma attribute_cons (wp : WordBox) rest (durs : gmap nat Z) :
  scan (wp :: rest) durs
  = if hit wp
    then match durs !! word_index wp with
         | Some d => Ok (<[word_index wp := d + dt]> durs)
         | None => Raise (KeyError (word_index wp))
         end
    else scan rest durs.
Proof.
  unfold scan, hit, in_box. cbn.
  destruct (x_in_range x_tolerance x wp), (y_in_range y_tolerance y wp);
    reflexivity.
Qed.

(** No box holds the point: nothing is added and nothing is raised. *)
Lemma attribute_no_match wps (durs : gmap nat Z) :
  Forall (fun wp => hit wp = false) wps -> scan wps durs = Ok durs.
Proof.
  induction 1 as [|wp rest Hwp _ IH]; [reflexivity|].
  now rewrite attribute_cons, Hwp.
Qed.

(** The first box that holds the point takes the interval, whatever
    follows it in the list. *)
Lemma attribute_first_match pre wp post (durs : gmap nat Z) :
  Forall (fun b => hit b = false) pre -> hit wp = true ->
  scan (pre ++ wp :: post) durs
  = match durs !! word_index wp with
    | Some d => Ok (<[word_index wp := d + dt]> durs)
    | None => Raise (KeyError (word_index wp))
    end.
Proof.
  intros Hpre Hwp. induction Hpre as [|b pre Hb _ IH]; cbn [app].
  - now rewrite attribute_cons, Hwp.
  - now rewrite attribute_cons, Hb.
Qed.

(** The two cases above are the only ones. *)
Lemma attribute_cases wps :
  Forall (fun wp => hit wp = false) wps \/
  exists pre wp post,
    wps = pre ++ wp :: post /\
    Forall (fun b => hit b = false) pre /\ hit wp = true.
Proof.
  induction wps as [|b wps IH]; [left; constructor|].
  destruct (hit b) eqn:Hb.
  - right. exists [], b, wps. repeat split; [constructor | exact Hb].
  - destruct IH as [IH | (pre & wp & post & -> & Hpre & Hwp)].
    + left. now constructor.
    + right. exists (b :: pre), wp, post.
      repeat split; [now constructor | exact Hwp].
Qed.

(** A scan that returns leaves the set of keys as it was. *)
Lemma attribute_keys wps (durs durs' : gmap nat Z) :
  scan wps durs = Ok durs' -> dom durs' = dom durs.
Proof.
  destruct (attribute_cases wps)
    as [Hno | (pre & wp & post & -> & Hpre & Hwp)].
  - rewrite attribute_no_match by exact Hno. now intros [= ->].
  - rewrite attribute_first_match by assumption.
    destruct (durs !! word_index wp) as [d|] eqn:Hd; [|discriminate].
    intros [= <-]. apply dom_insert_lookup_L. eauto.
Qed.

(** A scan raises nothing but [KeyError], and only for a missing key. *)
Lemma attribute_raises wps (durs : gmap nat Z) e :
  scan wps durs = Raise e ->
  exists wp, wp ∈ wps /\ e = KeyError (word_index wp) /\
             durs !! word_index wp = None.
Proof.
  destruct (attribute_cases wps)
    as [Hno | (pre & wp & post & -> & Hpre & Hwp)].
  - rewrite attribute_no_match by exact Hno. discriminate.
  - rewrite attribute_first_match by assumption.
    destruct (durs !! word_index wp) as [d|] eqn:Hd; [discriminate|].
    intros [= <-]. exists wp. repeat split; [|exact Hd].
    apply elem_of_app. right. left.
Qed.
End Attribute.

(** ** The dict of durations *)

Lemma init_durations_lookup (n k : nat) :
  init_durations n !! k = if decide (k < n)%nat then Some 0 else None.
Proof.
  unfold init_durations.
  enough (H : forall a, (list_to_map (map (fun i => (i, 0)) (seq a n))
                          : gmap nat Z) !! k
                        = if decide (a <= k < a + n)%nat then Some 0 else None).
  { rewrite H. repeat case_decide; (reflexivity || lia). }
  induction n as [|n IH]; intros a; cbn.
  - rewrite lookup_empty. case_decide; [lia | reflexivity].
  - rewrite lookup_insert, IH. repeat case_decide; (reflexivity || lia).
Qed.

Lemma init_durations_dom (n k : nat) :
  k ∈ dom (init_durations n) <-> (k < n)%nat.
Proof.
  rewrite elem_of_dom, init_durations_lookup.
  case_decide; split; intros H'; try lia; eauto.
  destruct H' as [? [=]].
Qed.

Section Loop_facts.
Variable word_positions : list WordBox.
Variables x_tolerance y_tolerance : Z.

Let body (durs : gmap nat Z) (pq : Sample * Sample) :=
  interval_body word_positions x_tolerance y_tolerance durs pq.1 pq.2.

Lemma interval_body_keys (durs durs' : gmap nat Z) pq :
  body durs pq = Ok durs' -> dom durs' = dom durs.
Proof.
  unfold body, interval_body. cbv zeta.
  destruct (_ || _); [now intros [= ->] | apply attribute_keys].
Qed.

Lemma interval_body_raises (durs : gmap nat Z) pq e :
  body durs pq = Raise e ->
  exists wp, wp ∈ word_positions /\ e = KeyError (word_index wp) /\
             word_index wp ∉ dom durs.
Proof.
  unfold body, interval_body. cbv zeta.
  destruct (_ || _); [discriminate|].
  intros (wp & ? & ? & ?)%attribute_raises.
  exists wp. repeat split; try assumption. now apply not_elem_of_dom.
Qed.

Lemma intervals_loop_keys pairs (durs durs' : gmap nat Z) :
  for_each body pairs durs = Ok durs' -> dom durs' = dom durs.
Proof.
  revert durs. induction pairs as [|pq pairs IH]; intros durs; cbn.
  - now intros [= ->].
  - destruct (body durs pq) as [d|e] eqn:Hb; cbn; [|discriminate].
    intros ->%IH. eapply interval_body_keys, Hb.
Qed.

Lemma intervals_loop_raises pairs (durs : gmap nat Z) e :
  for_each body pairs durs = Raise e ->
  exists wp, wp ∈ word_positions /\ e = KeyError (word_index wp) /\
             word_index wp ∉ dom durs.
Proof.
  revert durs. induction pairs as [|pq pairs IH]; intros durs; cbn.
  - discriminate.
  - destruct (body durs pq) as [d|e'] eqn:Hb; cbn.
    + intros (wp & ? & ? & ?)%IH. exists wp.
      erewrite <- interval_body_keys by exact Hb. auto.
    + intros [= ->]. eapply interval_body_raises, Hb.
Qed.
End Loop_facts.

(** ** Fetching the stream *)

Lemma get_mouse_data_skips (r : Trial) (df_reading : list Trial) :
  untracked r -> get_mouse_data (r :: df_reading) 0 = get_mouse_data df_reading 0.
Proof.
  unfold untracked, get_mouse_data. intros Hr. cbv zeta.
  rewrite filter_cons_False; [reflexivity|]. rewrite Hr. cbn. lia.
Qed.

Lemma get_mouse_data_takes (r : Trial) (df_reading : list Trial) :
  mouse_tracking_data r <> [] ->
  get_mouse_data (r :: df_reading) 0 = Ok (mouse_tracking_data r).
Proof.
  unfold get_mouse_data. intros Hr. cbv zeta.
  rewrite filter_cons_True; [reflexivity|].
  destruct (mouse_tracking_data r); [congruence | cbn; lia].
Qed.

(** With [trial_num = 0] the stream is that of the first row that has
    samples. *)
Lemma get_mouse_data_first pre r post :
  Forall untracked pre -> mouse_tracking_data r <> [] ->
  get_mouse_data (pre ++ r :: post) 0 = Ok (mouse_tracking_data r).
Proof.
  intros Hpre Hr. induction Hpre as [|r' pre Hr' _ IH]; cbn [app].
  - now apply get_mouse_data_takes.
  - now rewrite get_mouse_data_skips.
Qed.

(** Without such a row, [iloc[0]] on the empty selection raises. *)
Lemma get_mouse_data_none (df_reading : list Trial) :
  Forall untracked df_reading -> get_mouse_data df_reading 0 = Raise IndexError.
Proof.
  induction 1 as [|r df Hr _ IH]; [reflexivity|].
  now rewrite get_mouse_data_skips.
Qed.

Lemma get_mouse_data_cases (df_reading : list Trial) :
  Forall untracked df_reading \/
  exists pre r post,
    df_reading = pre ++ r :: post /\
    Forall untracked pre /\ mouse_tracking_data r <> [].
Proof.
  induction df_reading as [|r df IH]; [left; constructor|].
  destruct (mouse_tracking_data r) as [|s tr] eqn:Hr.
  - destruct IH as [IH | (pre & r' & post & -> & Hpre & Hr')].
    + left. now constructor.
    + right. exists (r :: pre), r', post. repeat split; [now constructor | exact Hr'].
  - right. exists [], r, df. repeat split; [constructor | congruence].
Qed.

(** The only exception of the fetch is [IndexError], and the stream it
    returns is never empty. *)
Lemma get_mouse_data_result (df_reading : list Trial) :
  get_mouse_data df_reading 0 = Raise IndexError \/
  exists tracking,
    get_mouse_data df_reading 0 = Ok tracking /\ (0 < length tracking)%nat.
Proof.
  destruct (get_mouse_data_cases df_reading)
    as [Hno | (pre & r & post & -> & Hpre & Hr)].
  - left. now apply get_mouse_data_none.
  - right. exists (mouse_tracking_data r). split.
    + now apply get_mouse_data_first.
    + destruct (mouse_tracking_data r); [congruence | cbn; lia].
Qed.

(** ** Building the table *)

Lemma map_result_Ok {A B : Type} (f : A -> result B) (xs : list A) ys :
  map_result f xs = Ok ys -> Forall2 (fun y x => f x = Ok y) ys xs.
Proof.
  revert ys. induction xs as [|x xs IH]; intros ys; cbn.
  - intros [= <-]. constructor.
  - destruct (f x) as [b|e] eqn:Hx; cbn; [|discriminate].
    destruct (map_result f xs) as [bs|e]; cbn; [|discriminate].
    intros [= <-]. constructor; [exact Hx | now apply IH].
Qed.

Lemma map_result_total {A B : Type} (f : A -> result B) (g : A -> B)
    (xs : list A) :
  Forall (fun x => f x = Ok (g x)) xs -> map_result f xs = Ok (map g xs).
Proof.
  induction 1 as [|x xs Hx _ IH]; [reflexivity|].
  cbn. now rewrite Hx, IH.
Qed.

Lemma map_result_raises {A B : Type} (f : A -> result B) (xs : list A) e :
  map_result f xs = Raise e -> exists x, x ∈ xs /\ f x = Raise e.
Proof.
  induction xs as [|x xs IH]; cbn; [discriminate|].
  destruct (f x) as [b|e'] eqn:Hx; cbn.
  - destruct (map_result f xs) as [bs|e']; cbn; [discriminate|].
    intros [= ->]. destruct IH as (x' & ? & ?); [reflexivity|].
    exists x'. split; [now right | assumption].
  - intros [= ->]. exists x. split; [left | exact Hx].
Qed.

Lemma zero_row_of_box (wp : WordBox) : row_of_box (zero_row wp) wp.
Proof. repeat split. Qed.

Lemma duration_row_of_box (durs : gmap nat Z) (wp : WordBox) r :
  duration_row durs wp = Ok r -> row_of_box r wp.
Proof.
  unfold duration_row. destruct (durs !! word_index wp); [|discriminate].
  intros [= <-]. repeat split.
Qed.

(** The rows of a returned table are built from the boxes, one by one. *)
Lemma word_durations_table_rows tracking word_positions x_tolerance
    y_tolerance table :
  word_durations_table tracking word_positions x_tolerance y_tolerance
  = Ok table ->
  Forall2 row_of_box table word_positions.
Proof.
  unfold word_durations_table. cbv zeta.
  destruct (length tracking <? 2)%nat.
  - intros [= <-]. apply Forall2_fmap_l, Forall_Forall2_diag, Forall_forall.
    intros wp _. apply zero_row_of_box.
  - destruct (track_loop _ _ _ _ _) as [durs|e]; cbn; [|discriminate].
    intros H%map_result_Ok. eapply Forall2_impl; [exact H|].
    cbn. intros r wp. apply duration_row_of_box.
Qed.

(** What the body of the function can raise is a [KeyError], for a
    [word_index] that is not below the number of boxes. *)
Lemma word_durations_table_raises tracking word_positions x_tolerance
    y_tolerance e :
  word_durations_table tracking word_positions x_tolerance y_tolerance
  = Raise e ->
  exists wp, wp ∈ word_positions /\ e = KeyError (word_index wp) /\
             (length word_positions <= word_index wp)%nat.
Proof.
  unfold word_durations_table. cbv zeta.
  destruct (length tracking <? 2)%nat; [discriminate|].
  rewrite track_loop_intervals.
  destruct (for_each _ _ _) as [durs|e'] eqn:Hloop; cbn.
  - intros (wp & Hin & Hrow)%map_result_raises. exists wp.
    unfold duration_row in Hrow.
    destruct (durs !! word_index wp) eqn:Hk; [discriminate|].
    injection Hrow as <-. repeat split; [exact Hin|].
    apply not_elem_of_dom in Hk.
    erewrite intervals_loop_keys in Hk by exact Hloop.
    rewrite init_durations_dom in Hk. lia.
  - intros [= ->].
    apply intervals_loop_raises in Hloop as (wp & Hin & -> & Hk).
    exists wp. rewrite init_durations_dom in Hk.
    repeat split; [exact Hin | lia].
Qed.

(** With every [word_index] below the number of boxes, the body returns. *)
Lemma word_durations_table_returns tracking word_positions x_tolerance
    y_tolerance :
  indices_in_range word_positions ->
  exists table,
    word_durations_table tracking word_positions x_tolerance y_tolerance
    = Ok table.
Proof.
  intros Hidx.
  destruct (word_durations_table tracking word_positions
              x_tolerance y_tolerance) as [table|e] eqn:Ht; [eauto|].
  apply word_durations_table_raises in Ht as (wp & Hin & _ & Hk).
  unfold indices_in_range in Hidx. rewrite Forall_forall in Hidx.
  specialize (Hidx wp Hin). lia.
Qed.

(** With all three arguments given, a stream to fetch and every
    [word_index] below the number of boxes, the call returns a table. *)
Lemma compute_word_durations_returns pre r post canvas_width text
    word_positions x_tolerance y_tolerance :
  Forall untracked pre -> mouse_tracking_data r <> [] ->
  indices_in_range word_positions ->
  exists table,
    compute_word_durations (pre ++ r :: post) (Some canvas_width) (Some text)
      (Some word_positions) x_tolerance y_tolerance
    = Ok table.
Proof.
  intros Hpre Hr Hidx. unfold compute_word_durations.
  rewrite get_mouse_data_first by assumption. cbn.
  now apply word_durations_table_returns.
Qed.

(** The boxes [get_word_positions] makes have their indices in range. *)
Lemma get_word_positions_indices_in_range text canvas_width font
    horizontal_padding vertical_padding_top line_height :
  indices_in_range
    (get_word_positions text canvas_width font
       horizontal_padding vertical_padding_top line_height).
Proof.
  destruct (get_word_positions_tokens text canvas_width font
              horizontal_padding vertical_padding_top line_height)
    as (_ & Hidx & _).
  unfold indices_in_range. apply Forall_forall. intros wp Hin.
  assert (Hk : word_index wp ∈ seq 0 (length (get_word_positions text
                 canvas_width font horizontal_padding vertical_padding_top
                 line_height))).
  { rewrite <- Hidx. apply list_elem_of_fmap. eauto. }
  apply elem_of_seq in Hk. lia.
Qed.

(** ** The table and its rows *)

(** C1, as the claim has it, fails when there are no samples: no row of
    the frame has any, so [get_mouse_data] raises [IndexError] and no table
    is returned, with one row per box or otherwise. *)
Lemma compute_word_durations_no_samples_no_table :
  Forall untracked [trial_with []; trial_with []] /\
  compute_word_durations [trial_with []; trial_with []] (Some 200)
    (Some "the") (Some [the_box]) 5 15 = Raise IndexError /\
  ~ (exists table,
       compute_word_durations [trial_with []; trial_with []] (Some 200)
         (Some "the") (Some [the_box]) 5 15 = Ok table /\
       length table = length [the_box]).
Proof.
  split; [repeat constructor|]. split; [reflexivity|].
  intros (table & Ht & _). discriminate Ht.
Qed.

(** C1, amended. Whatever [df_reading] and [word_positions] are, a table
    that [compute_word_durations] returns has exactly one row per box, in
    the order of the boxes, each row carrying the fields of its box; the
    number of samples of the stream, one or more, plays no part in this.
    The call does return a table when the three arguments are given, some
    row of [df_reading] has samples and every [word_index] is below the
    number of boxes. When no row of [df_reading] has samples it raises
    [IndexError] and returns no table. *)
Theorem compute_word_durations_one_row_per_box (df_reading : list Trial)
    canvas_width text word_positions x_tolerance y_tolerance :
  (forall table,
     compute_word_durations df_reading canvas_width text word_positions
       x_tolerance y_tolerance = Ok table ->
     exists boxes,
       word_positions = Some boxes /\
       length table = length boxes /\
       Forall2 row_of_box table boxes) /\
  (forall cw t boxes pre r post,
     canvas_width = Some cw -> text = Some t -> word_positions = Some boxes ->
     df_reading = pre ++ r :: post ->
     Forall untracked pre -> mouse_tracking_data r <> [] ->
     indices_in_range boxes ->
     exists table,
       compute_word_durations df_reading canvas_width text word_positions
         x_tolerance y_tolerance = Ok table) /\
  (forall cw t boxes,
     canvas_width = Some cw -> text = Some t -> word_positions = Some boxes ->
     Forall untracked df_reading ->
     compute_word_durations df_reading canvas_width text word_positions
       x_tolerance y_tolerance = Raise IndexError).
Proof.
  split; [|split].
  - intros table. unfold compute_word_durations.
    destruct canvas_width; [|discriminate].
    destruct text; [|discriminate].
    destruct word_positions as [boxes|]; [|discriminate].
    destruct (get_mouse_data df_reading 0) as [tracking|e]; cbn;
      [|discriminate].
    intros Hrows%word_durations_table_rows. exists boxes.
    repeat split; [|exact Hrows]. eapply Forall2_length, Hrows.
  - intros cw t boxes pre r post -> -> -> -> Hpre Hr Hidx.
    now apply compute_word_durations_returns.
  - intros cw t boxes -> -> -> Hno. unfold compute_word_durations.
    now rewrite get_mouse_data_none.
Qed.

Lemma compute_word_durations_one_row_per_box_witness :
  exists table,
    compute_word_durations
      [trial_with []; trial_with [sample_at 20 25 0; sample_at 20 25 500]]
      (Some 200) (Some "the") (Some [the_box]) 5 15 = Ok table /\
    length table = 1%nat.
Proof.
  destruct (compute_word_durations_one_row_per_box
              [trial_with []; trial_with [sample_at 20 25 0; sample_at 20 25 500]]
              (Some 200) (Some "the") (Some [the_box]) 5 15)
    as [Hshape _].
  eexists. split; [reflexivity|].
  destruct (Hshape _ eq_refl) as (boxes & [= <-] & Hlen & _).
  exact Hlen.
Defined.

(** C3, as the claim has it, fails on an empty stream: the only row has no
    samples, the selection of [get_mouse_data] is empty and [iloc[0]]
    raises. *)
Lemma compute_word_durations_empty_stream_raises :
  mouse_tracking_data (trial_with []) = [] /\
  compute_word_durations [trial_with []] (Some 200) (Some "the")
    (Some [the_box]) 5 15 = Raise IndexError.
Proof. split; reflexivity. Qed.

(** C3, amended. When the stream fetched from [df_reading] has fewer than
    two samples (it has one: rows without samples are never fetched), the
    call does not raise and returns, for every box, a row with
    [duration_ms = 0.0]. The guard [n < 2] gives this same table for any two
    streams shorter than two, the empty one included; but a [df_reading]
    none of whose rows has samples raises [IndexError] before the guard. *)
Theorem compute_word_durations_short_stream (df_reading : list Trial)
    canvas_width text word_positions x_tolerance y_tolerance :
  (forall tracking,
     get_mouse_data df_reading 0 = Ok tracking ->
     (length tracking < 2)%nat ->
     compute_word_durations df_reading (Some canvas_width) (Some text)
       (Some word_positions) x_tolerance y_tolerance
     = Ok (map zero_row word_positions)) /\
  (forall tracking,
     (length tracking < 2)%nat ->
     word_durations_table tracking word_positions x_tolerance y_tolerance
     = Ok (map zero_row word_positions)) /\
  (Forall untracked df_reading ->
   compute_word_durations df_reading (Some canvas_width) (Some text)
     (Some word_positions) x_tolerance y_tolerance
   = Raise IndexError).
Proof.
  assert (Hguard : forall tracking,
             (length tracking < 2)%nat ->
             word_durations_table tracking word_positions
               x_tolerance y_tolerance
             = Ok (map zero_row word_positions)).
  { intros tracking Hn. unfold word_durations_table. cbv zeta.
    apply Nat.ltb_lt in Hn. now rewrite Hn. }
  repeat split.
  - intros tracking Hfetch Hn. unfold compute_word_durations.
    rewrite Hfetch. cbn. now apply Hguard.
  - exact Hguard.
  - intros Hno. unfold compute_word_durations.
    now rewrite get_mouse_data_none.
Qed.

Lemma compute_word_durations_short_stream_witness :
  compute_word_durations [trial_with [sample_at 20 25 0]] (Some 200)
    (Some "the") (Some [the_box]) 5 15
  = Ok [zero_row the_box].
Proof.
  destruct (compute_word_durations_short_stream
              [trial_with [sample_at 20 25 0]] 200 "the" [the_box] 5 15)
    as [H _].
  apply (H [sample_at 20 25 0]); [reflexivity | cbn; lia].
Defined.

(** ** The argument checks *)

(** C8, as the claim has it, fails on empty arguments: an empty text and an
    empty list of boxes are not [None], and the call returns the empty
    table. *)
Lemma compute_word_durations_accepts_empty :
  compute_word_durations [trial_with [sample_at 20 25 0]] (Some 0) (Some "")
    (Some []) 5 15 = Ok [].
Proof. reflexivity. Qed.

(** C8, amended. The call raises [ValueError] exactly when one of
    [canvas_width], [text] and [word_positions] is missing ([None]): then it
    raises whatever [df_reading] holds, before the stream is fetched and with
    no table; with the three given, empty or not, it never raises it. *)
Theorem compute_word_durations_value_error (df_reading : list Trial)
    canvas_width text word_positions x_tolerance y_tolerance :
  (exists msg,
     compute_word_durations df_reading canvas_width text word_positions
       x_tolerance y_tolerance = Raise (ValueError msg)) <->
  canvas_width = None \/ text = None \/ word_positions = None.
Proof.
  unfold compute_word_durations. split.
  - intros [msg H].
    destruct canvas_width; [|now left].
    destruct text; [|now right; left].
    destruct word_positions as [boxes|]; [|now right; right].
    exfalso.
    destruct (get_mouse_data_result df_reading) as [Hf | (tr & Hf & _)];
      rewrite Hf in H; cbn in H; [discriminate|].
    apply word_durations_table_raises in H as (wp & _ & [=] & _).
  - intros [-> | [-> | ->]].
    + eauto.
    + destruct canvas_width; eauto.
    + destruct canvas_width; [destruct text|]; eauto.
Qed.

Lemma compute_word_durations_value_error_witness :
  exists msg,
    compute_word_durations [] (Some 200) None (Some [the_box]) 5 15
    = Raise (ValueError msg).
Proof.
  apply (compute_word_durations_value_error [] (Some 200) None
           (Some [the_box]) 5 15).
  right. left. reflexivity.
Defined.

(** C9. Two calls that differ only in the values given for [canvas_width]
    and [text], neither of them [None] in either call, have the same
    outcome: the two arguments are checked for presence and not read
    again. *)
Theorem compute_word_durations_ignores_canvas_width_and_text
    (df_reading : list Trial) (canvas_width canvas_width' : option Z)
    (text text' : option string) word_positions x_tolerance y_tolerance :
  canvas_width <> None -> canvas_width' <> None ->
  text <> None -> text' <> None ->
  compute_word_durations df_reading canvas_width text
    word_positions x_tolerance y_tolerance
  = compute_word_durations df_reading canvas_width' text'
      word_positions x_tolerance y_tolerance.
Proof.
  intros Hcw Hcw' Ht Ht'. unfold compute_word_durations.
  destruct canvas_width as [cw|]; [|congruence].
  destruct canvas_width' as [cw'|]; [|congruence].
  destruct text as [t|]; [|congruence].
  destruct text' as [t'|]; [|congruence].
  reflexivity.
Qed.

Lemma compute_word_durations_ignores_canvas_width_and_text_witness :
  compute_word_durations
    [trial_with [sample_at 20 25 0; sample_at 20 25 500]]
    (Some 200) (Some "the") (Some [the_box]) 5 15
  = compute_word_durations
      [trial_with [sample_at 20 25 0; sample_at 20 25 500]]
      (Some 1) (Some "another text") (Some [the_box]) 5 15.
Proof.
  apply compute_word_durations_ignores_canvas_width_and_text; discriminate.
Defined.

(** ** The stream that is bucketed *)

(** C10. The stream is fetched with [get_mouse_data(df_reading)], that is
    with [trial_num = 0]: it is the samples of the first row of [df_reading]
    that has samples, and the table is the one the body builds from that
    stream, whichever boxes are passed. In [build_data] the boxes of every
    trial are therefore bucketed against that one stream. *)
Theorem compute_word_durations_uses_first_tracked_row pre r post
    canvas_width text x_tolerance y_tolerance :
  Forall untracked pre -> mouse_tracking_data r <> [] ->
  get_mouse_data (pre ++ r :: post) 0 = Ok (mouse_tracking_data r) /\
  (forall word_positions,
     compute_word_durations (pre ++ r :: post) (Some canvas_width)
       (Some text) (Some word_positions) x_tolerance y_tolerance
     = word_durations_table (mouse_tracking_data r) word_positions
         x_tolerance y_tolerance) /\
  (forall participant_id font trial e,
     build_trial participant_id (pre ++ r :: post) font trial = Ok e ->
     word_durations_table (mouse_tracking_data r) (entry_word_positions e)
       5 15
     = Ok (entry_word_durations e)).
Proof.
  intros Hpre Hr.
  pose proof (get_mouse_data_first pre r post Hpre Hr) as Hfetch.
  repeat split.
  - exact Hfetch.
  - intros wps. unfold compute_word_durations. now rewrite Hfetch.
  - intros pid font trial e. unfold build_trial.
    destruct (get_canvas_dimensions _ _) as [dims|]; cbn; [|discriminate].
    destruct (get_text_content _ _) as [txt|]; cbn; [|discriminate].
    destruct (get_mouse_data _ trial) as [md|]; cbn; [|discriminate].
    rewrite Hfetch. cbn.
    destruct (word_durations_table _ _ _ _) as [tbl|] eqn:Ht; cbn;
      [|discriminate].
    intros [= <-]. exact Ht.
Qed.

Lemma compute_word_durations_uses_first_tracked_row_witness :
  compute_word_durations
    [trial_with []; trial_with [sample_at 20 25 0; sample_at 20 25 500];
     trial_with [sample_at 20 25 0; sample_at 20 25 7]]
    (Some 200) (Some "the") (Some [the_box]) 5 15
  = word_durations_table [sample_at 20 25 0; sample_at 20 25 500]
      [the_box] 5 15.
Proof.
  refine (proj1 (proj2 (compute_word_durations_uses_first_tracked_row
            [trial_with []]
            (trial_with [sample_at 20 25 0; sample_at 20 25 500])
            [trial_with [sample_at 20 25 0; sample_at 20 25 7]]
            200 "the" 5 15 _ _)) [the_box]).
  - repeat constructor.
  - discriminate.
Defined.

(** ** The filter on the intervals *)

Lemma for_each_filter {A St : Type} (f : St -> A -> result St)
    (keep : A -> bool) (xs : list A) (s : St) :
  (forall s' x, keep x = false -> f s' x = Ok s') ->
  for_each f xs s = for_each f (List.filter keep xs) s.
Proof.
  intros Hskip. revert s. induction xs as [|x xs IH]; intros s; cbn;
    [reflexivity|].
  destruct (keep x) eqn:Hx; cbn.
  - destruct (f s x); cbn; [apply IH | reflexivity].
  - rewrite Hskip by exact Hx. cbn. apply IH.
Qed.

Lemma for_each_ext_filter {A St : Type} (f g : St -> A -> result St)
    (keep : A -> bool) (xs : list A) (s : St) :
  (forall s' x, keep x = true -> f s' x = g s' x) ->
  for_each f (List.filter keep xs) s = for_each g (List.filter keep xs) s.
Proof.
  intros Hext. revert s. induction xs as [|x xs IH]; intros s; cbn;
    [reflexivity|].
  destruct (keep x) eqn:Hx; cbn; [|apply IH].
  rewrite Hext by exact Hx. destruct (g s x); cbn; [apply IH | reflexivity].
Qed.

Lemma valid_interval_spec (p q : Sample) :
  valid_interval (p, q) = true <-> 0 < timestamp q - timestamp p <= 1000.
Proof. unfold valid_interval, interval_dt. cbn. lia. Qed.

Lemma interval_body_invalid word_positions x_tolerance y_tolerance
    (durs : gmap nat Z) (p q : Sample) :
  valid_interval (p, q) = false ->
  interval_body word_positions x_tolerance y_tolerance durs p q = Ok durs.
Proof.
  unfold valid_interval, interval_dt, interval_body. cbn. intros H.
  destruct (_ || _) eqn:Hskip; [reflexivity | lia].
Qed.

Lemma interval_body_valid word_positions x_tolerance y_tolerance
    (durs : gmap nat Z) (p q : Sample) :
  valid_interval (p, q) = true ->
  interval_body word_positions x_tolerance y_tolerance durs p q
  = attribute word_positions x_tolerance y_tolerance
      (sample_x p) (sample_y p) (timestamp q - timestamp p) durs.
Proof.
  unfold valid_interval, interval_dt, interval_body. cbn. intros H.
  destruct (_ || _) eqn:Hskip; [lia | reflexivity].
Qed.

(** C4. An interval with [dt <= 0] or [dt > 1000] adds to no word's
    duration and raises nothing: the pass of the loop leaves the dict as it
    is. A pass that changes the dict has [0 < dt <= 1000]. Over a whole
    stream the loop does what it would do on the valid intervals alone, and
    these are the only ones that reach the scan over the boxes. *)
Theorem invalid_intervals_are_skipped word_positions x_tolerance y_tolerance :
  (forall (durs : gmap nat Z) p q,
     timestamp q - timestamp p <= 0 \/ 1000 < timestamp q - timestamp p ->
     interval_body word_positions x_tolerance y_tolerance durs p q
     = Ok durs) /\
  (forall (durs durs' : gmap nat Z) p q,
     interval_body word_positions x_tolerance y_tolerance durs p q
     = Ok durs' ->
     durs' <> durs ->
     0 < timestamp q - timestamp p <= 1000) /\
  (forall tracking (durs : gmap nat Z),
     track_loop tracking word_positions x_tolerance y_tolerance durs
     = for_each
         (fun d pq =>
            attribute word_positions x_tolerance y_tolerance
              (sample_x pq.1) (sample_y pq.1) (interval_dt pq) d)
         (List.filter valid_interval (intervals tracking)) durs).
Proof.
  assert (Hskip : forall (durs : gmap nat Z) p q,
             timestamp q - timestamp p <= 0
             \/ 1000 < timestamp q - timestamp p ->
             interval_body word_positions x_tolerance y_tolerance durs p q
             = Ok durs).
  { intros durs p q Hdt. apply interval_body_invalid.
    destruct (valid_interval (p, q)) eqn:Hv; [|reflexivity].
    apply valid_interval_spec in Hv. lia. }
  repeat split.
  - exact Hskip.
  - destruct (Z.le_gt_cases (timestamp q - timestamp p) 0) as [Hle|Hgt];
      [|exact Hgt].
    rewrite Hskip in H by (left; exact Hle). congruence.
  - destruct (Z.le_gt_cases (timestamp q - timestamp p) 1000) as [Hle|Hgt];
      [exact Hle|].
    rewrite Hskip in H by (right; lia). congruence.
  - intros tracking durs. rewrite track_loop_intervals.
    rewrite (for_each_filter _ valid_interval).
    + apply for_each_ext_filter. intros d [p q] Hv.
      now apply interval_body_valid.
    + intros d [p q] Hv. now apply interval_body_invalid.
Qed.

Lemma invalid_intervals_are_skipped_witness :
  interval_body [the_box] 5 15 (init_durations 1)
    (sample_at 20 25 0) (sample_at 20 25 1001)
  = Ok (init_durations 1).
Proof.
  apply (proj1 (invalid_intervals_are_skipped [the_box] 5 15)).
  right. cbn. lia.
Defined.

(** ** The table against the specification's aggregation *)

Section Refinement.
Variable word_positions : list WordBox.
Variables x_tolerance y_tolerance : Z.
Hypothesis Hnumbered : numbered word_positions.

Let n := length word_positions.
Let share := contribution word_positions x_tolerance y_tolerance.

Lemma numbered_index pre wp post :
  word_positions = pre ++ wp :: post -> word_index wp = length pre.
Proof.
  intros Hsplit.
  assert (Hk : map word_index word_positions !! length pre
               = Some (word_index wp)).
  { rewrite list_lookup_fmap, Hsplit, list_lookup_middle; reflexivity. }
  rewrite Hnumbered in Hk. apply lookup_seq in Hk. lia.
Qed.

Lemma first_hit_none (wps : list WordBox) x y :
  Forall (fun wp => in_box x_tolerance y_tolerance x y wp = false) wps ->
  first_hit wps x_tolerance y_tolerance x y = None.
Proof.
  induction 1 as [|wp rest Hwp _ IH]; [reflexivity|].
  cbn. now rewrite Hwp, IH.
Qed.

Lemma first_hit_first pre wp post x y :
  Forall (fun b => in_box x_tolerance y_tolerance x y b = false) pre ->
  in_box x_tolerance y_tolerance x y wp = true ->
  first_hit (pre ++ wp :: post) x_tolerance y_tolerance x y
  = Some (length pre).
Proof.
  intros Hpre Hwp. induction Hpre as [|b pre Hb _ IH]; cbn.
  - now rewrite Hwp.
  - now rewrite Hb, IH.
Qed.

(** One valid interval: the scan adds to the dict what the specification
    gives to each box. *)
Lemma attribute_share (durs : gmap nat Z) (acc : nat -> Z) pq :
  valid_interval pq = true ->
  (forall j, (j < n)%nat -> durs !! j = Some (acc j)) ->
  exists durs',
    attribute word_positions x_tolerance y_tolerance
      (sample_x pq.1) (sample_y pq.1) (interval_dt pq) durs = Ok durs' /\
    forall j, (j < n)%nat -> durs' !! j = Some (acc j + share j pq).
Proof.
  intros Hv Hacc. unfold share, contribution. rewrite Hv.
  destruct (attribute_cases x_tolerance y_tolerance (sample_x pq.1)
              (sample_y pq.1) word_positions)
    as [Hno | (pre & wp & post & Hsplit & Hpre & Hwp)].
  - rewrite attribute_no_match by exact Hno. exists durs.
    split; [reflexivity|]. intros j Hj.
    rewrite first_hit_none by exact Hno.
    rewrite decide_False by discriminate. rewrite Hacc by exact Hj.
    f_equal. lia.
  - pose proof (numbered_index _ _ _ Hsplit) as Hidx.
    assert (Hlt : (length pre < n)%nat).
    { unfold n. rewrite Hsplit, length_app. cbn. lia. }
    pose proof (attribute_first_match x_tolerance y_tolerance
                  (sample_x pq.1) (sample_y pq.1) (interval_dt pq)
                  pre wp post durs Hpre Hwp) as Hscan.
    pose proof (first_hit_first pre wp post _ _ Hpre Hwp) as Hfirst.
    rewrite <- Hsplit in Hscan, Hfirst.
    rewrite Hscan, Hidx, (Hacc _ Hlt). eexists. split; [reflexivity|].
    intros j Hj. rewrite Hfirst.
    destruct (decide (length pre = j)) as [<-|Hne].
    + rewrite lookup_insert_eq. now rewrite decide_True by reflexivity.
    + rewrite lookup_insert_ne by exact Hne.
      rewrite decide_False by congruence. rewrite Hacc by exact Hj.
      f_equal. lia.
Qed.

(** The whole loop, from any dict that has the keys of the boxes. *)
Lemma intervals_loop_share pairs (durs : gmap nat Z) (acc : nat -> Z) :
  (forall j, (j < n)%nat -> durs !! j = Some (acc j)) ->
  exists durs',
    for_each
      (fun d pq =>
         interval_body word_positions x_tolerance y_tolerance d pq.1 pq.2)
      pairs durs = Ok durs' /\
    forall j, (j < n)%nat ->
      durs' !! j
      = Some (acc j
              + dwell_of word_positions x_tolerance y_tolerance j pairs).
Proof.
  revert durs acc. induction pairs as [|[p q] pairs IH]; intros durs acc Hacc.
  - exists durs. split; [reflexivity|]. intros j Hj. cbn.
    rewrite Hacc by exact Hj. f_equal. lia.
  - cbn [for_each fst snd].
    destruct (valid_interval (p, q)) eqn:Hv.
    + rewrite interval_body_valid by exact Hv.
      destruct (attribute_share durs acc (p, q) Hv Hacc)
        as (durs1 & Hstep & Hacc1).
      cbn [fst snd] in Hstep. unfold interval_dt in Hstep at 1.
      cbn [fst snd] in Hstep. rewrite Hstep. cbn.
      destruct (IH durs1 _ Hacc1) as (durs' & Hloop & Hacc').
      exists durs'. split; [exact Hloop|]. intros j Hj.
      rewrite Hacc' by exact Hj. unfold share, dwell_of. cbn [foldr].
      f_equal. lia.
    + rewrite interval_body_invalid by exact Hv. cbn.
      destruct (IH durs acc Hacc) as (durs' & Hloop & Hacc').
      exists durs'. split; [exact Hloop|]. intros j Hj.
      assert (Hzero : contribution word_positions x_tolerance y_tolerance
                        j (p, q) = 0)
        by (unfold contribution; now rewrite Hv).
      rewrite Hacc' by exact Hj. unfold dwell_of. cbn [foldr].
      rewrite Hzero. f_equal.
Qed.

(** For boxes numbered by their position the code builds, for any stream,
    the table of the specification. *)
Lemma word_durations_table_dwell (tracking : list Sample) :
  word_durations_table tracking word_positions x_tolerance y_tolerance
  = Ok (map (dwell_row tracking word_positions x_tolerance y_tolerance)
          word_positions).
Proof.
  unfold word_durations_table. cbv zeta.
  destruct (length tracking <? 2)%nat eqn:Hn.
  - apply Nat.ltb_lt in Hn.
    assert (Hnone : intervals tracking = []).
    { destruct tracking as [|s [|s' tr]]; [reflexivity .. | cbn in Hn; lia]. }
    f_equal. apply map_ext. intros wp.
    unfold dwell_row, zero_row. now rewrite Hnone.
  - rewrite track_loop_intervals.
    destruct (intervals_loop_share (intervals tracking)
                (init_durations n) (fun _ => 0))
      as (durs & Hloop & Hdurs).
    { intros j Hj. rewrite init_durations_lookup.
      now rewrite decide_True by exact Hj. }
    unfold n in Hloop. rewrite Hloop. cbn. apply map_result_total. apply Forall_forall. intros wp Hin.
    assert (Hj : (word_index wp < n)%nat).
    { assert (Hk : word_index wp ∈ map word_index word_positions)
        by (apply list_elem_of_fmap; eauto).
      rewrite Hnumbered in Hk. apply elem_of_seq in Hk. unfold n. lia. }
    unfold duration_row. rewrite (Hdurs _ Hj). reflexivity.
Qed.
End Refinement.

(** A valid interval gives its whole [dt] to one position and nothing to
    the others. *)
Lemma contribution_exclusive word_positions x_tolerance y_tolerance pq j j' :
  contribution word_positions x_tolerance y_tolerance j pq <> 0 ->
  contribution word_positions x_tolerance y_tolerance j' pq <> 0 ->
  j = j' /\
  contribution word_positions x_tolerance y_tolerance j pq = interval_dt pq.
Proof.
  unfold contribution. destruct (valid_interval pq); [|congruence].
  repeat case_decide; try congruence. intros _ _. split; congruence.
Qed.

(** The scenario of the specification: two samples 500 ms apart over the
    box of ["the"]. *)
Example two_samples_over_the_box :
  compute_word_durations
    [trial_with [sample_at 20 25 0; sample_at 20 25 500]]
    (Some 200) (Some "the") (Some [the_box]) 5 15
  = Ok [ {| row_word_number := 0; row_word := "the"; row_duration_ms := 500;
            row_x_start := 15; row_x_end := 45; row_y_position := 30;
            row_line_number := 0 |} ].
Proof. reflexivity. Qed.

(** Boxes made by [get_word_positions] are numbered by their position. *)
Lemma get_word_positions_numbered text canvas_width font
    horizontal_padding vertical_padding_top line_height :
  numbered
    (get_word_positions text canvas_width font
       horizontal_padding vertical_padding_top line_height).
Proof.
  apply (get_word_positions_tokens text canvas_width font
           horizontal_padding vertical_padding_top line_height).
Qed.

(** The whole call, for boxes numbered by their position. *)
Lemma compute_word_durations_dwell pre r post canvas_width text
    word_positions x_tolerance y_tolerance :
  Forall untracked pre -> mouse_tracking_data r <> [] ->
  numbered word_positions ->
  compute_word_durations (pre ++ r :: post) (Some canvas_width) (Some text)
    (Some word_positions) x_tolerance y_tolerance
  = Ok (map (dwell_row (mouse_tracking_data r) word_positions
               x_tolerance y_tolerance) word_positions).
Proof.
  intros Hpre Hr Hnum. unfold compute_word_durations.
  rewrite get_mouse_data_first by assumption. cbn.
  now apply word_durations_table_dwell.
Qed.

(** ** First match *)

(** C5. An interval with [0 < dt <= 1000] goes in full to at most one
    accumulator. The boxes are scanned in list order: when none holds the
    position of sample [i], the dict is left as it is; otherwise [dt] is
    added under the [word_index] of the first box that holds it, whatever
    boxes follow, even ones that hold the point too; and in a pass that
    returns, at most one key of the dict changes its value. For boxes
    numbered by their position, the duration of each row of the table is
    the sum of what the intervals give to its box, and a valid interval
    gives its whole [dt] to one box and nothing to the others. *)
Theorem valid_interval_goes_to_first_match word_positions
    x_tolerance y_tolerance (durs : gmap nat Z) (p q : Sample) :
  let dt := timestamp q - timestamp p in
  let hit := in_box x_tolerance y_tolerance (sample_x p) (sample_y p) in
  0 < dt <= 1000 ->
  (Forall (fun wp => hit wp = false) word_positions ->
   interval_body word_positions x_tolerance y_tolerance durs p q = Ok durs) /\
  (forall pre wp post d,
     word_positions = pre ++ wp :: post ->
     Forall (fun b => hit b = false) pre -> hit wp = true ->
     durs !! word_index wp = Some d ->
     interval_body word_positions x_tolerance y_tolerance durs p q
     = Ok (<[word_index wp := d + dt]> durs)) /\
  (forall durs' k k',
     interval_body word_positions x_tolerance y_tolerance durs p q
     = Ok durs' ->
     durs' !! k <> durs !! k -> durs' !! k' <> durs !! k' -> k = k') /\
  (numbered word_positions ->
   (forall tracking,
      word_durations_table tracking word_positions x_tolerance y_tolerance
      = Ok (map (dwell_row tracking word_positions x_tolerance y_tolerance)
              word_positions)) /\
   (forall j j',
      contribution word_positions x_tolerance y_tolerance j (p, q) <> 0 ->
      contribution word_positions x_tolerance y_tolerance j' (p, q) <> 0 ->
      j = j' /\
      contribution word_positions x_tolerance y_tolerance j (p, q) = dt)).
Proof.
  intros dt hit Hdt.
  assert (Hv : valid_interval (p, q) = true)
    by (apply valid_interval_spec; exact Hdt).
  rewrite interval_body_valid by exact Hv. fold dt.
  repeat split.
  - apply attribute_no_match.
  - intros pre wp post d -> Hpre Hwp Hd.
    rewrite attribute_first_match by assumption. now rewrite Hd.
  - intros durs' k k'.
    destruct (attribute_cases x_tolerance y_tolerance (sample_x p)
                (sample_y p) word_positions)
      as [Hno | (pre & wp & post & -> & Hpre & Hwp)].
    + rewrite attribute_no_match by exact Hno. intros [= <-]. congruence.
    + rewrite attribute_first_match by assumption.
      destruct (durs !! word_index wp) as [d|]; [|discriminate].
      intros [= <-] Hk Hk'.
      destruct (decide (word_index wp = k)) as [<-|Hne];
        [|now rewrite lookup_insert_ne in Hk].
      destruct (decide (word_index wp = k')) as [<-|Hne'];
        [reflexivity | now rewrite lookup_insert_ne in Hk'].
  - now apply word_durations_table_dwell.
  - eapply contribution_exclusive; eassumption.
  - eapply (contribution_exclusive _ _ _ (p, q)); eassumption.
Qed.

Lemma valid_interval_goes_to_first_match_witness :
  interval_body [the_box; the_box] 5 15 (init_durations 2)
    (sample_at 20 25 0) (sample_at 20 25 500)
  = Ok (<[0%nat := 0 + 500]> (init_durations 2)).
Proof.
  refine (proj1 (proj2 (valid_interval_goes_to_first_match
            [the_box; the_box] 5 15 (init_durations 2)
            (sample_at 20 25 0) (sample_at 20 25 500) _))
            [] the_box [the_box] 0 eq_refl _ eq_refl eq_refl).
  - cbn. lia.
  - constructor.
Defined.


(** * Further properties of [get_word_positions] *)

Lemma follows_lookup (R : Z -> nat -> WordBox -> Prop) px pl
    (boxes : list WordBox) (i : nat) b b' :
  follows R px pl boxes ->
  boxes !! i = Some b -> boxes !! S i = Some b' ->
  R (x_end b) (line_index b) b'.
Proof.
  revert px pl i. induction boxes as [|a boxes IH]; intros px pl i;
    [discriminate|].
  cbn [follows]. intros [_ Hrest]. destruct i as [|i].
  - intros [= ->] Hb'. destruct boxes as [|c boxes]; [discriminate|].
    injection Hb' as ->. apply Hrest.
  - intros Hb Hb'. eapply IH; eassumption.
Qed.

Lemma follows_Forall (R : Z -> nat -> WordBox -> Prop) px pl
    (boxes : list WordBox) :
  follows R px pl boxes -> Forall (fun b => exists x l, R x l b) boxes.
Proof.
  revert px pl. induction boxes as [|a boxes IH]; intros px pl;
    [constructor|].
  cbn [follows]. intros [Ha Hrest]. constructor; [eauto | eapply IH, Hrest].
Qed.

(** A loop invariant [Inv] whose passes append a box related by [R] to the
    state before gives a list of boxes that [follows] [R]. *)
Section Layout_chain.
Variable font : Font.
Variables text_start_x text_start_y available_width : Z.
Variable Inv : Layout -> Prop.
Variable R : Z -> nat -> WordBox -> Prop.

Let place := place_word font text_start_x text_start_y available_width.

Hypothesis place_keeps :
  forall st w, Inv st ->
    exists b,
      word_positions (place st w) = word_positions st ++ [b] /\
      R (current_x st) (cur_line_index st) b /\
      current_x (place st w) = x_end b /\
      cur_line_index (place st w) = line_index b /\
      Inv (place st w).

Lemma layout_loop_follows (ws : list string) (st : Layout) :
  Inv st ->
  exists new,
    word_positions (fold_left place ws st) = word_positions st ++ new /\
    follows R (current_x st) (cur_line_index st) new.
Proof.
  revert st. induction ws as [|w ws IH]; intros st Hst.
  - exists []. cbn. now rewrite app_nil_r.
  - cbn [fold_left].
    destruct (place_keeps st w Hst) as (b & Hb & HR & Hx & Hl & Hinv).
    destruct (IH _ Hinv) as (new & Hnew & Hfollows).
    exists (b :: new). rewrite Hnew, Hb, <- app_assoc. split; [reflexivity|].
    cbn [follows]. rewrite <- Hx, <- Hl. auto.
Qed.
End Layout_chain.

Lemma append_empty_l (s : string) : "" +:+ s = s.
Proof. reflexivity. Qed.

Lemma additive_empty (font : Font) : additive font -> text_width font "" = 0.
Proof.
  intros Hadd. pose proof (Hadd "" "") as H.
  rewrite append_empty_l in H. lia.
Qed.

(** One pass of the loop, for any font. *)
Lemma place_word_line_step font text_start_x text_start_y available_width
    (st : Layout) (w : string) :
  exists b,
    word_positions
      (place_word font text_start_x text_start_y available_width st w)
    = word_positions st ++ [b] /\
    line_step text_start_x (current_x st) (cur_line_index st) b /\
    current_x (place_word font text_start_x text_start_y available_width st w)
    = x_end b /\
    cur_line_index
      (place_word font text_start_x text_start_y available_width st w)
    = line_index b /\
    True.
Proof.
  unfold place_word, line_step.
  destruct ((available_width <? _) && truthy (current_line_text st));
    cbn; eexists; (split; [reflexivity|]); cbn; auto.
Qed.

(** One pass of the loop, for a font without kerning. *)
Lemma place_word_wrap_step font text_start_x text_start_y available_width
    (st : Layout) (w : string) :
  additive font ->
  current_x st = text_start_x + text_width font (current_line_text st) ->
  exists b,
    word_positions
      (place_word font text_start_x text_start_y available_width st w)
    = word_positions st ++ [b] /\
    wrap_step font text_start_x available_width
      (current_x st) (cur_line_index st) b /\
    current_x (place_word font text_start_x text_start_y available_width st w)
    = x_end b /\
    cur_line_index
      (place_word font text_start_x text_start_y available_width st w)
    = line_index b /\
    current_x (place_word font text_start_x text_start_y available_width st w)
    = text_start_x
      + text_width font
          (current_line_text
             (place_word font text_start_x text_start_y available_width st w)).
Proof.
  intros Hadd Hx.
  pose proof (additive_empty font Hadd) as Hempty.
  unfold place_word, wrap_step.
  destruct (current_line_text st) as [|c cur] eqn:Hcur; cbn [truthy].
  - rewrite andb_false_r, !append_empty_l.
    eexists. split; [reflexivity|].
    cbn [x_start x_end line_index word current_x cur_line_index
         current_line_text].
    rewrite Hx, Hempty. repeat split; lia.
  - rewrite andb_true_r.
    set (line := String c cur) in *.
    pose proof (Hadd line " ") as Hsp.
    assert (Htest : text_width font ((line +:+ " ") +:+ w)
                    = text_width font line + text_width font " "
                      + text_width font w)
      by (now rewrite !Hadd).
    destruct (available_width <? _) eqn:Hfit;
      (eexists; split; [reflexivity|]);
      cbn [x_start x_end line_index word current_x cur_line_index
           current_line_text].
    + apply Z.ltb_lt in Hfit. repeat split; lia.
    + apply Z.ltb_ge in Hfit. repeat split; lia.
Qed.

(** The state the loop starts from opens the text at the margin. *)
Lemma get_word_positions_first text canvas_width font
    horizontal_padding vertical_padding_top line_height :
  exists b rest,
    get_word_positions text canvas_width font
      horizontal_padding vertical_padding_top line_height = b :: rest /\
    x_start b = horizontal_padding / 2 /\ line_index b = 0%nat.
Proof.
  unfold get_word_positions. cbv zeta.
  destruct (split_space text) as [|w ws] eqn:Hws.
  { pose proof (split_space_length text) as H. rewrite Hws in H.
    discriminate. }
  cbn [fold_left].
  match goal with |- context [fold_left ?f ws ?st] =>
    destruct (layout_loop_invariant font (horizontal_padding / 2)
                (vertical_padding_top + 10)
                (canvas_width - horizontal_padding) ws st)
      as (new & -> & _)
  end.
  unfold place_word. cbn [current_line_text truthy].
  rewrite andb_false_r. cbn. eauto.
Qed.

(** The boxes follow one another by [line_step], for any font. *)
Lemma get_word_positions_follows_line_step text canvas_width font
    horizontal_padding vertical_padding_top line_height :
  follows (line_step (horizontal_padding / 2)) (horizontal_padding / 2) 0
    (get_word_positions text canvas_width font
       horizontal_padding vertical_padding_top line_height).
Proof.
  unfold get_word_positions. cbv zeta.
  match goal with |- context [fold_left ?f ?ws ?st] =>
    destruct (layout_loop_follows font (horizontal_padding / 2)
                (vertical_padding_top + 10)
                (canvas_width - horizontal_padding)
                (fun _ => True) (line_step (horizontal_padding / 2))
                (fun st' w _ => place_word_line_step _ _ _ _ st' w)
                ws st I)
      as (new & -> & Hfollows)
  end.
  exact Hfollows.
Qed.

(** The boxes follow one another by [wrap_step], for a font without
    kerning. *)
Lemma get_word_positions_follows_wrap_step text canvas_width font
    horizontal_padding vertical_padding_top line_height :
  additive font ->
  follows
    (wrap_step font (horizontal_padding / 2)
       (canvas_width - horizontal_padding))
    (horizontal_padding / 2) 0
    (get_word_positions text canvas_width font
       horizontal_padding vertical_padding_top line_height).
Proof.
  intros Hadd. unfold get_word_positions. cbv zeta.
  pose proof (additive_empty font Hadd) as Hempty.
  match goal with |- context [fold_left ?f ?ws ?st] =>
    destruct (layout_loop_follows font (horizontal_padding / 2)
                (vertical_padding_top + 10)
                (canvas_width - horizontal_padding)
                (fun s => current_x s
                          = horizontal_padding / 2
                            + text_width font (current_line_text s))
                (wrap_step font (horizontal_padding / 2)
                   (canvas_width - horizontal_padding))
                (fun st' w H => place_word_wrap_step _ _ _ _ st' w Hadd H)
                ws st)
      as (new & -> & Hfollows)
  end.
  - cbn. rewrite Hempty. lia.
  - exact Hfollows.
Qed.

Lemma append_cons (c : ascii) (s t : string) :
  String c s +:+ t = String c (s +:+ t).
Proof. reflexivity. Qed.

Lemma length_append (s t : string) :
  String.length (s +:+ t) = (String.length s + String.length t)%nat.
Proof.
  induction s as [|c s IH]; [reflexivity|].
  rewrite append_cons. cbn. now rewrite IH.
Qed.

(** A font that gives every character the same width has no kerning. *)
Lemma fixed_width_font_additive (px : Z) : additive (fixed_width_font px).
Proof.
  intros s t. unfold text_width, fixed_width_font, bbox_width. cbn.
  rewrite length_append. lia.
Qed.

Lemma split_space_append (s t : string) :
  split_space (s +:+ String " " t) = split_space s ++ split_space t.
Proof.
  induction s as [|c s IH]; [reflexivity|].
  rewrite append_cons. cbn [split_space]. rewrite IH.
  destruct (Ascii.eqb c " "); [reflexivity|].
  destruct (split_space s) as [|tok toks] eqn:Hs; [|reflexivity].
  pose proof (split_space_length s) as H. rewrite Hs in H. discriminate.
Qed.

(** X1. The first box lies on line 0 at the left margin
    [horizontal_padding // 2]. Every later box lies on the line of the box
    before it or on the next line, never further down, and a box that opens
    a line starts at the left margin. *)
Theorem get_word_positions_lines_step_by_one text canvas_width font
    horizontal_padding vertical_padding_top line_height :
  let boxes := get_word_positions text canvas_width font
                 horizontal_padding vertical_padding_top line_height in
  (exists b rest,
     boxes = b :: rest /\
     x_start b = horizontal_padding / 2 /\ line_index b = 0%nat) /\
  (forall (i : nat) b b',
     boxes !! i = Some b -> boxes !! S i = Some b' ->
     line_index b' = line_index b \/
     (line_index b' = S (line_index b) /\
      x_start b' = horizontal_padding / 2)).
Proof.
  intros boxes. split.
  - apply get_word_positions_first.
  - intros i b b' Hb Hb'.
    exact (follows_lookup _ _ _ _ _ _ _
             (get_word_positions_follows_line_step text canvas_width font
                horizontal_padding vertical_padding_top line_height)
             Hb Hb').
Qed.

Lemma get_word_positions_lines_step_by_one_witness :
  line_index (box_at "cc" 2 15 35 80 2) = line_index (box_at "bb" 1 15 35 55 1)
  \/ (line_index (box_at "cc" 2 15 35 80 2)
       = S (line_index (box_at "bb" 1 15 35 55 1))
       /\ x_start (box_at "cc" 2 15 35 80 2) = 30 / 2).
Proof.
  exact (proj2 (get_word_positions_lines_step_by_one
                  "aa bb cc" 70 (fixed_width_font 10) 30 20 25)
           1%nat (box_at "bb" 1 15 35 55 1) (box_at "cc" 2 15 35 80 2)
           eq_refl eq_refl).
Defined.

(** X2. With a font without kerning, two successive boxes on one line are
    one space apart: the later one starts at the right edge of the earlier
    one plus the width of a space (or at that very edge, at the left margin,
    when the line holds only empty words so far). So boxes of a line do not
    overlap when a space has a width of at least 0. *)
Theorem get_word_positions_same_line_gap text canvas_width font
    horizontal_padding vertical_padding_top line_height (i : nat) b b' :
  let boxes := get_word_positions text canvas_width font
                 horizontal_padding vertical_padding_top line_height in
  additive font -> 0 <= text_width font " " ->
  boxes !! i = Some b -> boxes !! S i = Some b' ->
  line_index b' = line_index b ->
  x_end b <= x_start b' /\
  (x_start b' = x_end b + text_width font " " \/
   (x_start b' = x_end b /\ x_start b' = horizontal_padding / 2)).
Proof.
  intros boxes Hadd Hsp Hb Hb' Hline.
  pose proof (follows_lookup _ _ _ _ _ _ _
                (get_word_positions_follows_wrap_step text canvas_width font
                   horizontal_padding vertical_padding_top line_height Hadd)
                Hb Hb') as [(_ & Hx & Hm) | [(_ & Hx & _) | (Hl & _)]].
  - split; [lia|]. right. split; lia.
  - split; [lia|]. now left.
  - lia.
Qed.

Lemma get_word_positions_same_line_gap_witness :
  x_end (box_at "aa" 0 15 35 30 0) <= x_start (box_at "bb" 1 45 65 30 0).
Proof.
  refine (proj1 (get_word_positions_same_line_gap
                   "aa bb cc" 200 (fixed_width_font 10) 30 20 25 0
                   (box_at "aa" 0 15 35 30 0) (box_at "bb" 1 45 65 30 0)
                   (fixed_width_font_additive 10) _ eq_refl eq_refl eq_refl)).
  vm_compute. discriminate.
Defined.

(** X3. With a font without kerning, every box either starts at the left
    margin or ends within the available width
    [canvas_width - horizontal_padding] counted from the margin: only a word
    that opens its line can stick out of the text area. *)
Theorem get_word_positions_fits text canvas_width font
    horizontal_padding vertical_padding_top line_height b :
  additive font ->
  b ∈ get_word_positions text canvas_width font
        horizontal_padding vertical_padding_top line_height ->
  x_start b = horizontal_padding / 2 \/
  x_end b <= horizontal_padding / 2 + (canvas_width - horizontal_padding).
Proof.
  intros Hadd Hin.
  pose proof (follows_Forall _ _ _ _
                (get_word_positions_follows_wrap_step text canvas_width font
                   horizontal_padding vertical_padding_top line_height Hadd))
    as Hall.
  rewrite Forall_forall in Hall.
  destruct (Hall b Hin)
    as (px & pl & [(_ & Hx & Hm) | [(_ & _ & Hfit) | (_ & Hx & _)]]).
  - left. lia.
  - now right.
  - now left.
Qed.

Lemma get_word_positions_fits_witness :
  x_start (box_at "bb" 1 45 65 30 0) = 30 / 2 \/
  x_end (box_at "bb" 1 45 65 30 0) <= 30 / 2 + (200 - 30).
Proof.
  apply (get_word_positions_fits "aa bb cc" 200 (fixed_width_font 10)
           30 20 25 _ (fixed_width_font_additive 10)).
  apply list_elem_of_further, list_elem_of_here.
Defined.

(** X4. With a font without kerning, a line is broken only when it has to
    be: if a box lies on another line than the box before it, then that box
    before, one space and the word together would have ended beyond the
    available width. *)
Theorem get_word_positions_breaks_when_needed text canvas_width font
    horizontal_padding vertical_padding_top line_height (i : nat) b b' :
  let boxes := get_word_positions text canvas_width font
                 horizontal_padding vertical_padding_top line_height in
  additive font ->
  boxes !! i = Some b -> boxes !! S i = Some b' ->
  line_index b' <> line_index b ->
  horizontal_padding / 2 + (canvas_width - horizontal_padding)
  < x_end b + text_width font " " + text_width font (word b').
Proof.
  intros boxes Hadd Hb Hb' Hline.
  pose proof (follows_lookup _ _ _ _ _ _ _
                (get_word_positions_follows_wrap_step text canvas_width font
                   horizontal_padding vertical_padding_top line_height Hadd)
                Hb Hb') as [(Hl & _) | [(Hl & _) | (_ & _ & Hover)]].
  - contradiction.
  - contradiction.
  - exact Hover.
Qed.

Lemma get_word_positions_breaks_when_needed_witness :
  30 / 2 + (70 - 30)
  < x_end (box_at "bb" 1 15 35 55 1) + text_width (fixed_width_font 10) " "
    + text_width (fixed_width_font 10) (word (box_at "cc" 2 15 35 80 2)).
Proof.
  apply (get_word_positions_breaks_when_needed
           "aa bb cc" 70 (fixed_width_font 10) 30 20 25 1
           (box_at "bb" 1 15 35 55 1) (box_at "cc" 2 15 35 80 2)
           (fixed_width_font_additive 10) eq_refl eq_refl).
  cbn. lia.
Defined.

(** X5. For any font, every box is exactly as wide as the font measures its
    word on its own: [x_end - x_start] is the width of [getbbox(word)]. *)
Theorem get_word_positions_box_width text canvas_width font
    horizontal_padding vertical_padding_top line_height b :
  b ∈ get_word_positions text canvas_width font
        horizontal_padding vertical_padding_top line_height ->
  x_end b - x_start b = text_width font (word b).
Proof.
  intros Hin.
  destruct (get_word_positions_tokens text canvas_width font
              horizontal_padding vertical_padding_top line_height)
    as (_ & _ & Hall).
  rewrite Forall_forall in Hall. rewrite (Hall b Hin). lia.
Qed.

Lemma get_word_positions_box_width_witness :
  x_end (box_at "bb" 1 45 65 30 0) - x_start (box_at "bb" 1 45 65 30 0)
  = text_width (fixed_width_font 10) (word (box_at "bb" 1 45 65 30 0)).
Proof.
  apply (get_word_positions_box_width "aa bb cc" 200 (fixed_width_font 10)
           30 20 25).
  apply list_elem_of_further, list_elem_of_here.
Defined.

(** X6. The layout reads the font only through the horizontal extent
    [bbox[2] - bbox[0]] of the strings it measures: two fonts whose
    [getbbox] results have the same extents, whatever their offsets and
    heights, give the same boxes. *)
Theorem get_word_positions_reads_widths_only (font1 font2 : Font) text
    canvas_width horizontal_padding vertical_padding_top line_height :
  (forall s, bbox_width (getbbox font1 s) = bbox_width (getbbox font2 s)) ->
  get_word_positions text canvas_width font1
    horizontal_padding vertical_padding_top line_height
  = get_word_positions text canvas_width font2
      horizontal_padding vertical_padding_top line_height.
Proof. intros Hw. now apply get_word_positions_font_ext. Qed.

Lemma get_word_positions_reads_widths_only_witness :
  get_word_positions "aa bb cc" 70 (fixed_width_font 10) 30 20 25
  = get_word_positions "aa bb cc" 70
      {| getbbox := fun s => (3, 7, 3 + 10 * Z.of_nat (String.length s), 9) |}
      30 20 25.
Proof.
  apply get_word_positions_reads_widths_only.
  intros s. cbn. lia.
Defined.

(** X7. The layout is made word by word from the left: the boxes of a text
    are unchanged, and stay first, when more words are appended to the text
    after a space. *)
Theorem get_word_positions_prefix text more canvas_width font
    horizontal_padding vertical_padding_top line_height :
  exists later,
    get_word_positions (text +:+ " " +:+ more) canvas_width font
      horizontal_padding vertical_padding_top line_height
    = get_word_positions text canvas_width font
        horizontal_padding vertical_padding_top line_height ++ later /\
    length later = length (split_space more).
Proof.
  unfold get_word_positions. cbv zeta.
  change (" " +:+ more) with (String " " more).
  rewrite split_space_append, fold_left_app.
  match goal with |- context [fold_left ?f (split_space more) ?st] =>
    destruct (layout_loop_invariant font (horizontal_padding / 2)
                (vertical_padding_top + 10)
                (canvas_width - horizontal_padding) (split_space more) st)
      as (new & -> & Hws & _)
  end.
  exists new. split; [reflexivity|].
  rewrite <- Hws. now rewrite length_map.
Qed.

(** * Further properties of [compute_word_durations] *)

(** ** Bounds on the durations *)

Section Duration_bounds.
Variable word_positions : list WordBox.
Variables x_tolerance y_tolerance : Z.

Let body (durs : gmap nat Z) (pq : Sample * Sample) :=
  interval_body word_positions x_tolerance y_tolerance durs pq.1 pq.2.

Lemma interval_body_bound (durs durs' : gmap nat Z) pq (bound : Z) :
  (forall k d, durs !! k = Some d -> 0 <= d <= bound) ->
  body durs pq = Ok durs' ->
  forall k d, durs' !! k = Some d -> 0 <= d <= bound + 1000.
Proof.
  intros Hdurs. unfold body. destruct pq as [p q]. cbn [fst snd].
  destruct (valid_interval (p, q)) eqn:Hv.
  - rewrite interval_body_valid by exact Hv.
    apply valid_interval_spec in Hv.
    destruct (attribute_cases x_tolerance y_tolerance (sample_x p)
                (sample_y p) word_positions)
      as [Hno | (pre & wp & post & -> & Hpre & Hwp)].
    + rewrite attribute_no_match by exact Hno. intros [= <-] k d Hk.
      specialize (Hdurs k d Hk). lia.
    + rewrite attribute_first_match by assumption.
      destruct (durs !! word_index wp) as [d0|] eqn:Hd0; [|discriminate].
      intros [= <-] k d. pose proof (Hdurs _ _ Hd0) as Hb0.
      destruct (decide (word_index wp = k)) as [<-|Hne].
      * rewrite lookup_insert_eq. intros [= <-]. lia.
      * rewrite lookup_insert_ne by exact Hne. intros Hk.
        pose proof (Hdurs _ _ Hk). lia.
  - rewrite interval_body_invalid by exact Hv. intros [= <-] k d Hk.
    specialize (Hdurs k d Hk). lia.
Qed.

Lemma intervals_loop_bound pairs (durs durs' : gmap nat Z) (bound : Z) :
  (forall k d, durs !! k = Some d -> 0 <= d <= bound) ->
  for_each body pairs durs = Ok durs' ->
  forall k d, durs' !! k = Some d ->
    0 <= d <= bound + 1000 * Z.of_nat (length pairs).
Proof.
  revert durs bound. induction pairs as [|pq pairs IH]; intros durs bound Hdurs.
  - cbn. intros [= <-] k d Hk. specialize (Hdurs k d Hk). lia.
  - cbn [for_each].
    destruct (body durs pq) as [durs1|e] eqn:Hstep; cbn; [|discriminate].
    intros Hloop k d Hk.
    pose proof (IH durs1 (bound + 1000)
                  (interval_body_bound durs durs1 pq bound Hdurs Hstep)
                  Hloop k d Hk) as H.
    cbn [length]. lia.
Qed.
End Duration_bounds.

Lemma word_durations_table_bounds tracking word_positions x_tolerance
    y_tolerance table :
  word_durations_table tracking word_positions x_tolerance y_tolerance
  = Ok table ->
  Forall (fun r =>
            0 <= row_duration_ms r
            <= 1000 * Z.of_nat (length tracking - 1)) table.
Proof.
  unfold word_durations_table. cbv zeta.
  destruct (length tracking <? 2)%nat.
  - intros [= <-]. apply Forall_fmap, Forall_forall. intros wp _. cbn. lia.
  - rewrite track_loop_intervals.
    destruct (for_each _ _ _) as [durs|e] eqn:Hloop; cbn; [|discriminate].
    intros Hrows%map_result_Ok.
    assert (Hb : forall k d, durs !! k = Some d ->
                   0 <= d <= 1000 * Z.of_nat (length tracking - 1)).
    { intros k d Hd.
      pose proof (intervals_loop_bound word_positions x_tolerance y_tolerance
                    (intervals tracking)
                    (init_durations (length word_positions)) durs 0) as Hb.
      rewrite intervals_length in Hb. apply Hb with (k := k).
      - intros k0 d0. rewrite init_durations_lookup.
        case_decide; [|discriminate]. intros [= <-]. lia.
      - exact Hloop.
      - exact Hd. }
    clear Hloop.
    induction Hrows as [|r wp table wps Hr _ IH]; constructor; [|exact IH].
    unfold duration_row in Hr.
    destruct (durs !! word_index wp) as [d|] eqn:Hd; [|discriminate].
    injection Hr as <-. cbn. unfold round. eapply Hb, Hd.
Qed.

(** X8. No duration in a returned table is negative, and none exceeds 1000
    ms for each interval of the stream: with [n] samples every
    [duration_ms] lies between 0 and [1000 * (n - 1)]. *)
Theorem compute_word_durations_bounds (df_reading : list Trial)
    canvas_width text word_positions x_tolerance y_tolerance tracking table :
  get_mouse_data df_reading 0 = Ok tracking ->
  compute_word_durations df_reading canvas_width text word_positions
    x_tolerance y_tolerance = Ok table ->
  Forall (fun r =>
            0 <= row_duration_ms r
            <= 1000 * Z.of_nat (length tracking - 1)) table.
Proof.
  intros Hfetch. unfold compute_word_durations.
  destruct canvas_width; [|discriminate].
  destruct text; [|discriminate].
  destruct word_positions as [boxes|]; [|discriminate].
  rewrite Hfetch. cbn. apply word_durations_table_bounds.
Qed.

Lemma compute_word_durations_bounds_witness :
  Forall (fun r => 0 <= row_duration_ms r <= 1000 * Z.of_nat (3 - 1))
    [ {| row_word_number := 0; row_word := "the"; row_duration_ms := 600;
         row_x_start := 15; row_x_end := 45; row_y_position := 30;
         row_line_number := 0 |} ].
Proof.
  exact (compute_word_durations_bounds
           [trial_with [sample_at 20 25 0; sample_at 20 25 500;
                        sample_at 20 25 600]]
           (Some 200) (Some "the") (Some [the_box]) 5 15 _ _
           eq_refl eq_refl).
Defined.

(** ** When the call returns *)

Lemma word_durations_table_in_range tracking word_positions x_tolerance
    y_tolerance table :
  (2 <= length tracking)%nat ->
  word_durations_table tracking word_positions x_tolerance y_tolerance
  = Ok table ->
  indices_in_range word_positions.
Proof.
  unfold word_durations_table. cbv zeta. intros Hn.
  apply Nat.ltb_ge in Hn. rewrite Hn. rewrite track_loop_intervals.
  destruct (for_each _ _ _) as [durs|e] eqn:Hloop; cbn; [|discriminate].
  intros Hrows%map_result_Ok. unfold indices_in_range.
  apply intervals_loop_keys in Hloop.
  generalize (length word_positions) Hloop. clear Hloop. intros n Hdom.
  induction Hrows as [|r wp table wps Hr _ IH]; constructor; [|exact IH].
  unfold duration_row in Hr.
  destruct (durs !! word_index wp) as [d|] eqn:Hd; [|discriminate].
  apply init_durations_dom. rewrite <- Hdom. apply elem_of_dom. eauto.
Qed.

(** X9. With two samples or more in the stream, the call (with its three
    arguments given) returns a table exactly when every [word_index] is
    below the number of boxes; otherwise it raises [KeyError] for an index
    that is not. *)
Theorem compute_word_durations_returns_iff (df_reading : list Trial)
    canvas_width text word_positions x_tolerance y_tolerance tracking :
  get_mouse_data df_reading 0 = Ok tracking ->
  (2 <= length tracking)%nat ->
  ((exists table,
      compute_word_durations df_reading (Some canvas_width) (Some text)
        (Some word_positions) x_tolerance y_tolerance = Ok table)
   <-> indices_in_range word_positions) /\
  (~ indices_in_range word_positions ->
   exists k,
     compute_word_durations df_reading (Some canvas_width) (Some text)
       (Some word_positions) x_tolerance y_tolerance = Raise (KeyError k) /\
     (length word_positions <= k)%nat).
Proof.
  intros Hfetch Hn. unfold compute_word_durations. rewrite Hfetch. cbn.
  split; [split|].
  - intros [table Ht]. eapply word_durations_table_in_range; eassumption.
  - apply word_durations_table_returns.
  - intros Hbad.
    destruct (word_durations_table tracking word_positions
                x_tolerance y_tolerance) as [table|e] eqn:Ht.
    + exfalso. apply Hbad.
      eapply word_durations_table_in_range; eassumption.
    + apply word_durations_table_raises in Ht as (wp & _ & -> & Hk).
      eauto.
Qed.

Lemma compute_word_durations_returns_iff_witness :
  exists k,
    compute_word_durations
      [trial_with [sample_at 20 25 0; sample_at 20 25 500]]
      (Some 200) (Some "the") (Some [box_at "the" 7 15 45 30 0]) 5 15
    = Raise (KeyError k) /\ (1 <= k)%nat.
Proof.
  refine (proj2 (compute_word_durations_returns_iff
                   [trial_with [sample_at 20 25 0; sample_at 20 25 500]]
                   200 "the" [box_at "the" 7 15 45 30 0] 5 15
                   [sample_at 20 25 0; sample_at 20 25 500]
                   eq_refl _) _).
  - cbn. lia.
  - unfold indices_in_range. intros H.
    apply Forall_cons_1 in H as [H _]. cbn in H. lia.
Defined.

(** ** What the table depends on *)

Lemma for_each_Forall2 {A B St : Type} (f : St -> A -> result St)
    (g : St -> B -> result St) (xs : list A) (ys : list B) (s : St) :
  Forall2 (fun a b => forall s', f s' a = g s' b) xs ys ->
  for_each f xs s = for_each g ys s.
Proof.
  intros H. revert s. induction H as [|a b xs ys Hab _ IH]; intros s;
    [reflexivity|].
  cbn. rewrite Hab. destruct (g s b); cbn; [apply IH | reflexivity].
Qed.

Lemma interval_body_same_interval word_positions x_tolerance y_tolerance
    (durs : gmap nat Z) pq pq' :
  same_interval pq pq' ->
  interval_body word_positions x_tolerance y_tolerance durs pq.1 pq.2
  = interval_body word_positions x_tolerance y_tolerance durs pq'.1 pq'.2.
Proof.
  unfold same_interval, interval_dt, interval_body. intros (-> & -> & ->).
  reflexivity.
Qed.

Lemma word_durations_table_same_intervals tracking tracking' word_positions
    x_tolerance y_tolerance :
  length tracking = length tracking' ->
  Forall2 same_interval (intervals tracking) (intervals tracking') ->
  word_durations_table tracking word_positions x_tolerance y_tolerance
  = word_durations_table tracking' word_positions x_tolerance y_tolerance.
Proof.
  intros Hlen Hsame. unfold word_durations_table. cbv zeta.
  rewrite Hlen, !track_loop_intervals.
  erewrite for_each_Forall2; [reflexivity|].
  eapply Forall2_impl; [exact Hsame|].
  intros pq pq' H s'. now apply interval_body_same_interval.
Qed.

Lemma intervals_last_sample (tracking : list Sample) (s s' : Sample) :
  timestamp s = timestamp s' ->
  Forall2 same_interval
    (intervals (tracking ++ [s])) (intervals (tracking ++ [s'])).
Proof.
  intros Ht. induction tracking as [|a tracking IH]; [constructor|].
  destruct tracking as [|b tracking].
  - cbn. constructor; [|constructor].
    unfold same_interval, interval_dt. cbn. rewrite Ht. auto.
  - cbn [app] in *. rewrite !intervals_cons. constructor; [|exact IH].
    repeat split.
Qed.

Lemma intervals_delay (c : Z) (tracking : list Sample) :
  Forall2 same_interval
    (intervals tracking) (intervals (map (delay c) tracking)).
Proof.
  induction tracking as [|a tracking IH]; [constructor|].
  destruct tracking as [|b tracking]; [constructor|].
  cbn [map] in *. rewrite !intervals_cons. constructor; [|exact IH].
  unfold same_interval, interval_dt. cbn. repeat split. lia.
Qed.

(** X10. The position of the last sample of the stream is never read: two
    streams that differ only in the [x] and [y] of their last sample give
    the same outcome. *)
Theorem compute_word_durations_last_position_unused
    (df_reading df_reading' : list Trial) canvas_width text word_positions
    x_tolerance y_tolerance tracking (s s' : Sample) :
  get_mouse_data df_reading 0 = Ok (tracking ++ [s]) ->
  get_mouse_data df_reading' 0 = Ok (tracking ++ [s']) ->
  timestamp s = timestamp s' ->
  compute_word_durations df_reading canvas_width text word_positions
    x_tolerance y_tolerance
  = compute_word_durations df_reading' canvas_width text word_positions
      x_tolerance y_tolerance.
Proof.
  intros Hf Hf' Ht. unfold compute_word_durations.
  destruct canvas_width; [|reflexivity].
  destruct text; [|reflexivity].
  destruct word_positions as [boxes|]; [|reflexivity].
  rewrite Hf, Hf'. cbn. apply word_durations_table_same_intervals.
  - now rewrite !length_app.
  - now apply intervals_last_sample.
Qed.

Lemma compute_word_durations_last_position_unused_witness :
  compute_word_durations
    [trial_with [sample_at 20 25 0; sample_at 20 25 500]]
    (Some 200) (Some "the") (Some [the_box]) 5 15
  = compute_word_durations
      [trial_with [sample_at 20 25 0; sample_at 999 (-4) 500]]
      (Some 200) (Some "the") (Some [the_box]) 5 15.
Proof.
  exact (compute_word_durations_last_position_unused
           [trial_with [sample_at 20 25 0; sample_at 20 25 500]]
           [trial_with [sample_at 20 25 0; sample_at 999 (-4) 500]]
           (Some 200) (Some "the") (Some [the_box]) 5 15
           [sample_at 20 25 0] (sample_at 20 25 500) (sample_at 999 (-4) 500)
           eq_refl eq_refl eq_refl).
Defined.

(** X11. For streams whose timestamps are integers (whole milliseconds),
    as timestamps are modelled here, only their differences are read:
    delaying every sample of the stream by the same whole number of
    milliseconds leaves the outcome as it is. (With fractional timestamps
    the subtraction of line 142 is a floating-point one, which this does
    not cover.) *)
Theorem compute_word_durations_delay_invariant
    (df_reading df_reading' : list Trial) canvas_width text word_positions
    x_tolerance y_tolerance tracking (c : Z) :
  get_mouse_data df_reading 0 = Ok tracking ->
  get_mouse_data df_reading' 0 = Ok (map (delay c) tracking) ->
  compute_word_durations df_reading canvas_width text word_positions
    x_tolerance y_tolerance
  = compute_word_durations df_reading' canvas_width text word_positions
      x_tolerance y_tolerance.
Proof.
  intros Hf Hf'. unfold compute_word_durations.
  destruct canvas_width; [|reflexivity].
  destruct text; [|reflexivity].
  destruct word_positions as [boxes|]; [|reflexivity].
  rewrite Hf, Hf'. cbn. apply word_durations_table_same_intervals.
  - now rewrite length_map.
  - apply intervals_delay.
Qed.

Lemma compute_word_durations_delay_invariant_witness :
  compute_word_durations
    [trial_with [sample_at 20 25 0; sample_at 20 25 500]]
    (Some 200) (Some "the") (Some [the_box]) 5 15
  = compute_word_durations
      [trial_with [sample_at 20 25 1000; sample_at 20 25 1500]]
      (Some 200) (Some "the") (Some [the_box]) 5 15.
Proof.
  exact (compute_word_durations_delay_invariant
           [trial_with [sample_at 20 25 0; sample_at 20 25 500]]
           [trial_with [sample_at 20 25 1000; sample_at 20 25 1500]]
           (Some 200) (Some "the") (Some [the_box]) 5 15
           [sample_at 20 25 0; sample_at 20 25 500] 1000
           eq_refl eq_refl).
Defined.

(** ** Conservation of time *)

Lemma sum_over_add (f g : nat -> Z) (js : list nat) :
  sum_over (fun j => f j + g j) js = sum_over f js + sum_over g js.
Proof.
  induction js as [|j js IH]; [reflexivity|].
  unfold sum_over in *. cbn. rewrite IH. lia.
Qed.

Lemma sum_over_ext (f g : nat -> Z) (js : list nat) :
  (forall j, f j = g j) -> sum_over f js = sum_over g js.
Proof.
  intros H. induction js as [|j js IH]; [reflexivity|].
  unfold sum_over in *. cbn. now rewrite IH, H.
Qed.

Lemma sum_over_zero (js : list nat) : sum_over (fun _ => 0) js = 0.
Proof.
  induction js as [|j js IH]; [reflexivity|].
  unfold sum_over in *. cbn. now rewrite IH.
Qed.

(** Summing [d] at the one position [o] names, over a run of positions. *)
Lemma sum_over_one (o : option nat) (d : Z) (a n : nat) :
  sum_over (fun j => if decide (o = Some j) then d else 0) (seq a n)
  = match o with
    | Some k => if decide (a <= k < a + n)%nat then d else 0
    | None => 0
    end.
Proof.
  revert a. induction n as [|n IH]; intros a.
  - cbn. destruct o; [|reflexivity]. case_decide; [lia | reflexivity].
  - unfold sum_over in *. cbn [seq foldr]. rewrite IH.
    destruct o as [k|].
    + destruct (decide (k = a)) as [->|Hne].
      * rewrite decide_True by reflexivity.
        rewrite decide_False by lia. rewrite decide_True by lia. lia.
      * rewrite (decide_False (P := Some k = Some a)) by congruence.
        repeat case_decide; lia.
    + now rewrite decide_False by discriminate.
Qed.

Lemma first_hit_lt word_positions x_tolerance y_tolerance x y (k : nat) :
  first_hit word_positions x_tolerance y_tolerance x y = Some k ->
  (k < length word_positions)%nat.
Proof.
  revert k. induction word_positions as [|wp wps IH]; intros k;
    [discriminate|].
  cbn. destruct (in_box _ _ _ _ wp).
  - intros [= <-]. lia.
  - destruct (first_hit wps _ _ _ _) as [k'|]; [|discriminate].
    intros [= <-]. specialize (IH k' eq_refl). lia.
Qed.

(** Over all positions, the shares of the boxes add up to the time of the
    intervals that hit a box. *)
Lemma dwell_of_total word_positions x_tolerance y_tolerance pairs :
  sum_over
    (fun j => dwell_of word_positions x_tolerance y_tolerance j pairs)
    (seq 0 (length word_positions))
  = hit_time word_positions x_tolerance y_tolerance pairs.
Proof.
  induction pairs as [|pq pairs IH].
  - cbn. apply sum_over_zero.
  - unfold dwell_of in *. cbn [foldr]. rewrite sum_over_add, IH.
    unfold hit_time. cbn [foldr]. f_equal.
    unfold contribution. destruct (valid_interval pq).
    + rewrite sum_over_one.
      destruct (first_hit _ _ _ _ _) as [k|] eqn:Hk; [|reflexivity].
      apply first_hit_lt in Hk. rewrite decide_True by lia. reflexivity.
    + apply sum_over_zero.
Qed.

Lemma total_duration_dwell tracking word_positions x_tolerance y_tolerance
    (boxes : list WordBox) :
  total_duration
    (map (dwell_row tracking word_positions x_tolerance y_tolerance) boxes)
  = sum_over
      (fun j => dwell_of word_positions x_tolerance y_tolerance j
                  (intervals tracking))
      (map word_index boxes).
Proof.
  induction boxes as [|wp boxes IH]; [reflexivity|].
  unfold total_duration, sum_over in *. cbn. now rewrite IH.
Qed.

Lemma hit_time_cons word_positions x_tolerance y_tolerance pq pairs :
  hit_time word_positions x_tolerance y_tolerance (pq :: pairs)
  = (if valid_interval pq then
       match first_hit word_positions x_tolerance y_tolerance
               (sample_x pq.1) (sample_y pq.1) with
       | Some _ => interval_dt pq
       | None => 0
       end
     else 0)
    + hit_time word_positions x_tolerance y_tolerance pairs.
Proof. reflexivity. Qed.

Lemma valid_time_cons pq pairs :
  valid_time (pq :: pairs)
  = (if valid_interval pq then interval_dt pq else 0) + valid_time pairs.
Proof. reflexivity. Qed.

Lemma hit_time_le_valid_time word_positions x_tolerance y_tolerance pairs :
  0 <= hit_time word_positions x_tolerance y_tolerance pairs
  <= valid_time pairs.
Proof.
  induction pairs as [|[p q] pairs IH]; [cbn; lia|].
  rewrite hit_time_cons, valid_time_cons.
  destruct (valid_interval (p, q)) eqn:Hv; [|lia].
  apply valid_interval_spec in Hv. unfold interval_dt. cbn [fst snd].
  destruct (first_hit _ _ _ _ _); lia.
Qed.

(** X12. For boxes numbered by their position and streams whose
    timestamps are integers (whole milliseconds), as timestamps are
    modelled here, no time is counted twice or made up: every duration is
    then a whole number, which the rounding of line 158 leaves as it is,
    and the durations of the table add up to the time of the valid
    intervals whose first sample lies in some box, which is at most the time
    of all valid intervals of the stream. (With fractional timestamps the
    rounding to 2 decimals changes the sum, which this does not cover.) *)
Theorem compute_word_durations_conserves_time (df_reading : list Trial)
    canvas_width text word_positions x_tolerance y_tolerance tracking :
  get_mouse_data df_reading 0 = Ok tracking ->
  numbered word_positions ->
  exists table,
    compute_word_durations df_reading (Some canvas_width) (Some text)
      (Some word_positions) x_tolerance y_tolerance = Ok table /\
    total_duration table
    = hit_time word_positions x_tolerance y_tolerance (intervals tracking) /\
    0 <= total_duration table <= valid_time (intervals tracking).
Proof.
  intros Hfetch Hnum. unfold compute_word_durations. rewrite Hfetch. cbn.
  rewrite word_durations_table_dwell by exact Hnum.
  eexists. split; [reflexivity|].
  assert (Htotal : total_duration
                     (map (dwell_row tracking word_positions
                             x_tolerance y_tolerance) word_positions)
                   = hit_time word_positions x_tolerance y_tolerance
                       (intervals tracking)).
  { rewrite total_duration_dwell. unfold numbered in Hnum. rewrite Hnum.
    apply dwell_of_total. }
  split; [exact Htotal|]. rewrite Htotal. apply hit_time_le_valid_time.
Qed.

Lemma compute_word_durations_conserves_time_witness :
  exists table,
    compute_word_durations
      [trial_with [sample_at 20 25 0; sample_at 500 500 400;
                   sample_at 20 25 600]]
      (Some 200) (Some "the") (Some [the_box]) 5 15 = Ok table /\
    total_duration table = 400.
Proof.
  destruct (compute_word_durations_conserves_time
              [trial_with [sample_at 20 25 0; sample_at 500 500 400;
                           sample_at 20 25 600]]
              200 "the" [the_box] 5 15
              [sample_at 20 25 0; sample_at 500 500 400; sample_at 20 25 600]
              eq_refl eq_refl)
    as (table & Ht & Htotal & _).
  exists table. split; [exact Ht|]. rewrite Htotal. reflexivity.
Defined.

(** ** Streams without a valid interval *)

Lemma intervals_loop_all_invalid word_positions x_tolerance y_tolerance
    pairs (durs : gmap nat Z) :
  Forall (fun pq => valid_interval pq = false) pairs ->
  for_each
    (fun d pq =>
       interval_body word_positions x_tolerance y_tolerance d pq.1 pq.2)
    pairs durs = Ok durs.
Proof.
  induction 1 as [|[p q] pairs Hpq _ IH]; [reflexivity|].
  cbn [for_each fst snd]. rewrite interval_body_invalid by exact Hpq.
  cbn. exact IH.
Qed.

(** X13. When no two successive samples are more than 0 and at most 1000 ms
    apart, the call returns the all-zero table, the one it returns for a
    stream of fewer than two samples (given boxes whose indices are in
    range). *)
Theorem compute_word_durations_no_valid_interval (df_reading : list Trial)
    canvas_width text word_positions x_tolerance y_tolerance tracking :
  get_mouse_data df_reading 0 = Ok tracking ->
  Forall (fun pq => ~ 0 < interval_dt pq <= 1000) (intervals tracking) ->
  indices_in_range word_positions ->
  compute_word_durations df_reading (Some canvas_width) (Some text)
    (Some word_positions) x_tolerance y_tolerance
  = Ok (map zero_row word_positions).
Proof.
  intros Hfetch Hinvalid Hidx. unfold compute_word_durations.
  rewrite Hfetch. cbn. unfold word_durations_table. cbv zeta.
  destruct (length tracking <? 2)%nat; [reflexivity|].
  rewrite track_loop_intervals, intervals_loop_all_invalid.
  - cbn. apply map_result_total. unfold indices_in_range in Hidx.
    eapply Forall_impl; [exact Hidx|]. cbn. intros wp Hwp.
    unfold duration_row. rewrite init_durations_lookup.
    now rewrite decide_True by exact Hwp.
  - eapply Forall_impl; [exact Hinvalid|]. cbn. intros [p q] Hpq.
    destruct (valid_interval (p, q)) eqn:Hv; [|reflexivity].
    apply valid_interval_spec in Hv. unfold interval_dt in Hpq.
    cbn in Hpq. lia.
Qed.

Lemma compute_word_durations_no_valid_interval_witness :
  compute_word_durations
    [trial_with [sample_at 20 25 0; sample_at 20 25 5000;
                 sample_at 20 25 4000]]
    (Some 200) (Some "the") (Some [the_box]) 5 15
  = Ok [zero_row the_box].
Proof.
  apply (compute_word_durations_no_valid_interval
           [trial_with [sample_at 20 25 0; sample_at 20 25 5000;
                        sample_at 20 25 4000]]
           200 "the" [the_box] 5 15
           [sample_at 20 25 0; sample_at 20 25 5000; sample_at 20 25 4000]
           eq_refl).
  - change (intervals [sample_at 20 25 0; sample_at 20 25 5000;
                       sample_at 20 25 4000])
      with [(sample_at 20 25 0, sample_at 20 25 5000);
            (sample_at 20 25 5000, sample_at 20 25 4000)].
    constructor; [unfold interval_dt; cbn; lia|].
    constructor; [unfold interval_dt; cbn; lia|]. constructor.
  - repeat constructor.
Defined.

(** * Properties of [get_mouse_data] and of the loop over the trials *)

Lemma filter_tracked_all (df_reading : list Trial) :
  Forall tracked df_reading ->
  filter (fun r => (0 < length (mouse_tracking_data r))%nat) df_reading
  = df_reading.
Proof.
  induction 1 as [|r df Hr _ IH]; [reflexivity|].
  rewrite filter_cons_True, IH; [reflexivity|].
  unfold tracked in Hr. destruct (mouse_tracking_data r);
    [congruence | cbn; lia].
Qed.

Lemma filter_tracked_shorter (df_reading : list Trial) (r : Trial) :
  r ∈ df_reading -> untracked r ->
  (length (filter (fun r => (0 < length (mouse_tracking_data r))%nat)
             df_reading)
   < length df_reading)%nat.
Proof.
  intros Hin Hr. induction Hin as [r df | r r' df _ IH].
  - rewrite filter_cons_False by (rewrite Hr; cbn; lia).
    pose proof (length_filter
                  (fun r => (0 < length (mouse_tracking_data r))%nat) df).
    cbn. lia.
  - specialize (IH Hr).
    destruct (decide (0 < length (mouse_tracking_data r'))%nat) as [Hp|Hp].
    + rewrite filter_cons_True by exact Hp. cbn. lia.
    + rewrite filter_cons_False by exact Hp. cbn. lia.
Qed.

Lemma get_mouse_data_raises (df_reading : list Trial) (k : nat) e :
  get_mouse_data df_reading k = Raise e -> e = IndexError.
Proof.
  unfold get_mouse_data, iloc. cbv zeta.
  destruct (_ !! k); cbn; [discriminate | now intros [= <-]].
Qed.

Lemma get_mouse_data_all_tracked (df_reading : list Trial) (k : nat) r :
  Forall tracked df_reading -> df_reading !! k = Some r ->
  get_mouse_data df_reading k = Ok (mouse_tracking_data r).
Proof.
  intros Hall Hk. unfold get_mouse_data, iloc. cbv zeta.
  rewrite filter_tracked_all by exact Hall. now rewrite Hk.
Qed.

(** X14. [get_mouse_data] numbers the rows that have samples, not the rows
    of the frame: a stream it returns is never empty and is the stream of
    some row, it raises nothing but [IndexError], a row without samples in
    front is skipped for every [trial_num], and only in a frame whose rows
    all have samples is trial [k] the row [k]. *)
Theorem get_mouse_data_numbers_tracked_rows (df_reading : list Trial)
    (k : nat) :
  (forall tracking,
     get_mouse_data df_reading k = Ok tracking ->
     tracking <> [] /\
     exists r, r ∈ df_reading /\ mouse_tracking_data r = tracking) /\
  (forall e, get_mouse_data df_reading k = Raise e -> e = IndexError) /\
  (forall r0,
     untracked r0 ->
     get_mouse_data (r0 :: df_reading) k = get_mouse_data df_reading k) /\
  (Forall tracked df_reading ->
   forall r, df_reading !! k = Some r ->
     get_mouse_data df_reading k = Ok (mouse_tracking_data r)).
Proof.
  repeat split.
  - revert H. unfold get_mouse_data, iloc. cbv zeta.
    destruct (_ !! k) as [r|] eqn:Hk; cbn; [|discriminate].
    intros [= <-]. apply list_elem_of_lookup_2, list_elem_of_filter in Hk.
    destruct Hk as [Hlen _]. destruct (mouse_tracking_data r);
      [cbn in Hlen; lia | discriminate].
  - revert H. unfold get_mouse_data, iloc. cbv zeta.
    destruct (_ !! k) as [r|] eqn:Hk; cbn; [|discriminate].
    intros [= <-]. apply list_elem_of_lookup_2, list_elem_of_filter in Hk.
    exists r. split; [apply Hk | reflexivity].
  - apply get_mouse_data_raises.
  - intros r0 Hr0. unfold get_mouse_data. cbv zeta.
    rewrite filter_cons_False; [reflexivity|].
    unfold untracked in Hr0. rewrite Hr0. cbn. lia.
  - intros Hall r. now apply get_mouse_data_all_tracked.
Qed.

Lemma get_mouse_data_numbers_tracked_rows_witness :
  get_mouse_data
    [trial_with []; trial_with [sample_at 1 2 3]; trial_with [sample_at 4 5 6]]
    1
  = get_mouse_data
      [trial_with [sample_at 1 2 3]; trial_with [sample_at 4 5 6]] 1.
Proof.
  exact (proj1 (proj2 (proj2 (get_mouse_data_numbers_tracked_rows
           [trial_with [sample_at 1 2 3]; trial_with [sample_at 4 5 6]] 1)))
           (trial_with []) eq_refl).
Defined.

(** ** One pass of the loop over the trials *)

Lemma iloc_Ok {A : Type} (rows : list A) (i : nat) (r : A) :
  iloc rows i = Ok r <-> rows !! i = Some r.
Proof.
  unfold iloc. destruct (rows !! i); split; congruence.
Qed.

(** X15. An entry that one pass of the loop of [build_data] returns for
    trial number [k] holds the text and the canvas of row [k] of the frame,
    the boxes of that text, and a table with one row per box, that is one
    row per token of the text; its [mouse_data] is the stream
    [get_mouse_data] returns for [k]. *)
Theorem build_trial_entry (participant_id : string)
    (reading_trials : list Trial) (font : Font) (k : nat) (e : TrialEntry) :
  build_trial participant_id reading_trials font k = Ok e ->
  exists row,
    reading_trials !! k = Some row /\
    entry_participant_id e = participant_id /\
    entry_trial_num e = k /\
    entry_text_content e = text_content row /\
    entry_canvas_width e = trial_canvas_width row /\
    entry_canvas_height e = trial_canvas_height row /\
    get_mouse_data reading_trials k = Ok (entry_mouse_data e) /\
    entry_word_positions e
    = get_word_positions (text_content row) (trial_canvas_width row) font
        HORIZONTAL_PADDING VERTICAL_PADDING_TOP LINE_HEIGHT /\
    Forall2 row_of_box (entry_word_durations e) (entry_word_positions e) /\
    length (entry_word_durations e) = S (count_spaces (text_content row)).
Proof.
  unfold build_trial, get_canvas_dimensions, get_text_content.
  destruct (iloc reading_trials k) as [row|] eqn:Hrow; cbn; [|discriminate].
  apply iloc_Ok in Hrow.
  destruct (get_mouse_data reading_trials k) as [md|]; cbn; [|discriminate].
  unfold compute_word_durations.
  destruct (get_mouse_data reading_trials 0) as [tr|]; cbn; [|discriminate].
  destruct (word_durations_table _ _ _ _) as [table|] eqn:Ht; cbn;
    [|discriminate].
  intros [= <-]. cbn. exists row.
  apply word_durations_table_rows in Ht.
  repeat split; try assumption.
  rewrite (Forall2_length _ _ _ Ht), <- split_space_length.
  destruct (get_word_positions_tokens (text_content row)
              (trial_canvas_width row) font
              HORIZONTAL_PADDING VERTICAL_PADDING_TOP LINE_HEIGHT)
    as (Hws & _).
  rewrite <- Hws. now rewrite length_map.
Qed.

Lemma build_trial_entry_witness :
  exists row,
    [trial_with [sample_at 20 25 0; sample_at 20 25 500]] !! 0%nat
    = Some row /\
    entry_text_content
      (trial_entry "6138" (fixed_width_font 10)
         [sample_at 20 25 0; sample_at 20 25 500] 0
         (trial_with [sample_at 20 25 0; sample_at 20 25 500]))
    = text_content row.
Proof.
  destruct (build_trial_entry "6138"
              [trial_with [sample_at 20 25 0; sample_at 20 25 500]]
              (fixed_width_font 10) 0
              (trial_entry "6138" (fixed_width_font 10)
                 [sample_at 20 25 0; sample_at 20 25 500] 0
                 (trial_with [sample_at 20 25 0; sample_at 20 25 500]))
              eq_refl)
    as (row & Hrow & _ & _ & Htext & _).
  exists row. split; [exact Hrow | exact Htext].
Defined.

(** ** The whole loop *)

Lemma build_trial_all_tracked (participant_id : string)
    (reading_trials : list Trial) (font : Font) (k : nat) (row : Trial) :
  Forall tracked reading_trials -> reading_trials !! k = Some row ->
  build_trial participant_id reading_trials font k
  = Ok (trial_entry participant_id font (first_stream reading_trials) k row).
Proof.
  intros Hall Hrow. unfold build_trial, get_canvas_dimensions, get_text_content.
  rewrite (proj2 (iloc_Ok reading_trials k row) Hrow). cbn.
  rewrite (get_mouse_data_all_tracked _ _ _ Hall Hrow). cbn.
  unfold compute_word_durations.
  destruct reading_trials as [|r0 rest]; [discriminate|].
  rewrite get_mouse_data_takes
    by (apply Forall_cons_1 in Hall as [H0 _]; exact H0).
  cbn. rewrite word_durations_table_dwell
    by apply get_word_positions_numbered.
  reflexivity.
Qed.

Lemma map_result_seq_imap {A B : Type} (f : nat -> result B)
    (g : nat -> A -> B) (l : list A) (k : nat) :
  (forall i x, l !! i = Some x -> f (k + i)%nat = Ok (g (k + i)%nat x)) ->
  map_result f (seq k (length l)) = Ok (imap (fun i => g (k + i)%nat) l).
Proof.
  revert k. induction l as [|x l IH]; intros k Hf; [reflexivity|].
  cbn [length seq map_result imap].
  pose proof (Hf 0%nat x eq_refl) as H0. rewrite Nat.add_0_r in H0.
  rewrite H0. cbn. rewrite (IH (S k)).
  - cbn. rewrite Nat.add_0_r. do 2 f_equal.
    apply imap_ext. intros i y _. cbn. f_equal. lia.
  - intros i y Hi. specialize (Hf (S i) y Hi).
    replace (S k + i)%nat with (k + S i)%nat by lia. exact Hf.
Qed.

(** X16. When every reading trial has samples, the loop of [build_data]
    returns one entry per trial, in order. Entry [i] holds the text, canvas
    and stream of row [i] and the boxes of its text, but its durations are
    the time that the stream of the first row, not its own, spends on these
    boxes. *)
Theorem build_trials_all_tracked (participant_id : string)
    (reading_trials : list Trial) (font : Font) :
  Forall tracked reading_trials ->
  build_trials participant_id reading_trials font
  = Ok (imap (trial_entry participant_id font (first_stream reading_trials))
          reading_trials).
Proof.
  intros Hall. unfold build_trials.
  rewrite (map_result_seq_imap _
             (trial_entry participant_id font (first_stream reading_trials))
             reading_trials 0).
  - reflexivity.
  - intros i row Hrow. cbn. now apply build_trial_all_tracked.
Qed.

Lemma build_trials_all_tracked_witness :
  build_trials "6138"
    [trial_with [sample_at 500 500 0; sample_at 500 500 500];
     trial_with [sample_at 20 25 0; sample_at 20 25 500]]
    (fixed_width_font 10)
  = Ok (imap (trial_entry "6138" (fixed_width_font 10)
                [sample_at 500 500 0; sample_at 500 500 500])
          [trial_with [sample_at 500 500 0; sample_at 500 500 500];
           trial_with [sample_at 20 25 0; sample_at 20 25 500]]).
Proof.
  apply (build_trials_all_tracked "6138"
           [trial_with [sample_at 500 500 0; sample_at 500 500 500];
            trial_with [sample_at 20 25 0; sample_at 20 25 500]]
           (fixed_width_font 10)).
  repeat constructor; discriminate.
Defined.

Lemma map_result_raises_uniform {A B : Type} (f : A -> result B)
    (xs : list A) (x : A) (E : exn) :
  (forall y e, f y = Raise e -> e = E) ->
  x ∈ xs -> (exists e, f x = Raise e) ->
  map_result f xs = Raise E.
Proof.
  intros Huni Hin [e Hx]. induction Hin as [x xs | x y xs _ IH].
  - cbn. rewrite Hx. cbn. f_equal. eapply Huni, Hx.
  - cbn. destruct (f y) as [b|e'] eqn:Hy; cbn.
    + rewrite (IH Hx). reflexivity.
    + f_equal. eapply Huni, Hy.
Qed.

Lemma build_trial_raises (participant_id : string)
    (reading_trials : list Trial) (font : Font) (k : nat) e :
  build_trial participant_id reading_trials font k = Raise e ->
  e = IndexError.
Proof.
  unfold build_trial, get_canvas_dimensions, get_text_content, iloc.
  destruct (reading_trials !! k) as [row|]; cbn; [|now intros [= <-]].
  destruct (get_mouse_data reading_trials k) as [md|e'] eqn:Hmd; cbn.
  - unfold compute_word_durations.
    destruct (get_mouse_data reading_trials 0) as [tr|e'] eqn:H0; cbn.
    + destruct (word_durations_table_returns tr
                  (get_word_positions (text_content row)
                     (trial_canvas_width row) font HORIZONTAL_PADDING
                     VERTICAL_PADDING_TOP LINE_HEIGHT) 5 15
                  (get_word_positions_indices_in_range _ _ _ _ _ _))
        as [table ->].
      discriminate.
    + intros [= <-]. eapply get_mouse_data_raises, H0.
  - intros [= <-]. eapply get_mouse_data_raises, Hmd.
Qed.

(** X17. When some reading trial has no samples, the loop of [build_data]
    raises [IndexError] and returns no entry at all, also for the trials
    that have samples. *)
Theorem build_trials_untracked_raises (participant_id : string)
    (reading_trials : list Trial) (font : Font) (r : Trial) :
  r ∈ reading_trials -> untracked r ->
  build_trials participant_id reading_trials font = Raise IndexError.
Proof.
  intros Hin Hr. unfold build_trials.
  pose proof (filter_tracked_shorter reading_trials r Hin Hr) as Hm.
  set (m := length (filter (fun r => (0 < length (mouse_tracking_data r))%nat)
                      reading_trials)) in *.
  apply (map_result_raises_uniform _ _ m).
  - intros k e. apply build_trial_raises.
  - apply elem_of_seq. lia.
  - assert (Hmd : get_mouse_data reading_trials m = Raise IndexError).
    { unfold get_mouse_data, iloc. cbv zeta. fold m.
      rewrite lookup_ge_None_2 by (subst m; lia). reflexivity. }
    unfold build_trial, get_canvas_dimensions, get_text_content.
    destruct (iloc reading_trials m); cbn; [|eauto].
    rewrite Hmd. cbn. eauto.
Qed.

Lemma build_trials_untracked_raises_witness :
  build_trials "6138"
    [trial_with [sample_at 20 25 0; sample_at 20 25 500]; trial_with []]
    (fixed_width_font 10)
  = Raise IndexError.
Proof.
  apply (build_trials_untracked_raises "6138"
           [trial_with [sample_at 20 25 0; sample_at 20 25 500]; trial_with []]
           (fixed_width_font 10) (trial_with [])).
  - apply list_elem_of_further, list_elem_of_here.
  - reflexivity.
Defined.

(** * Properties of the names of files and folders *)

Lemma split_on_nonempty (sep : ascii) (s : string) : split_on sep s <> [].
Proof.
  destruct s as [|c s]; cbn; [discriminate|].
  destruct (Ascii.eqb c sep); [discriminate|].
  destruct (split_on sep s); discriminate.
Qed.

Lemma split_on_append (sep : ascii) (s t : string) :
  split_on sep (s +:+ String sep t) = split_on sep s ++ split_on sep t.
Proof.
  induction s as [|c s IH].
  - rewrite append_empty_l. cbn. now rewrite Ascii.eqb_refl.
  - rewrite append_cons. cbn [split_on]. rewrite IH.
    destruct (Ascii.eqb c sep); [reflexivity|].
    destruct (split_on sep s) as [|tok toks] eqn:Hs; [|reflexivity].
    now apply split_on_nonempty in Hs.
Qed.

Lemma split_on_free (sep : ascii) (s : string) :
  occurs sep s = false -> split_on sep s = [s].
Proof.
  induction s as [|c s IH]; [reflexivity|].
  cbn. intros [Hc Hs]%orb_false_elim. rewrite Hc, IH by exact Hs.
  reflexivity.
Qed.

Lemma split_on_tokens_free (sep : ascii) (s : string) :
  Forall (fun tok => occurs sep tok = false) (split_on sep s).
Proof.
  induction s as [|c s IH]; [repeat constructor|].
  cbn. destruct (Ascii.eqb c sep) eqn:Hc.
  - constructor; [reflexivity | exact IH].
  - destruct (split_on sep s) as [|tok toks]; [repeat constructor; cbn|].
    + now rewrite Hc.
    + apply Forall_cons_1 in IH as [Htok Htoks].
      constructor; [|exact Htoks]. cbn. now rewrite Hc, Htok.
Qed.

(** The first token is what stands before the first separator. *)
Lemma split_on_first (sep : ascii) (s : string) :
  exists tok toks,
    split_on sep s = tok :: toks /\
    occurs sep tok = false /\
    (s = tok \/ exists rest, s = tok +:+ String sep rest).
Proof.
  induction s as [|c s (tok & toks & Hs & Htok & Hshape)].
  - exists "", []. repeat split. now left.
  - cbn. destruct (Ascii.eqb c sep) eqn:Hc.
    + apply Ascii.eqb_eq in Hc as ->.
      exists "", (split_on sep s). repeat split. right. now exists s.
    + rewrite Hs. exists (String c tok), toks. repeat split.
      * cbn. now rewrite Hc, Htok.
      * destruct Hshape as [-> | [rest ->]]; [now left|].
        right. exists rest. now rewrite append_cons.
Qed.

Lemma occurs_append (c : ascii) (s t : string) :
  occurs c (s +:+ t) = occurs c s || occurs c t.
Proof.
  induction s as [|a s IH]; [reflexivity|].
  rewrite append_cons. cbn. now rewrite IH, orb_assoc.
Qed.

Lemma append_sep_inj (c : ascii) (a a' b b' : string) :
  occurs c a = false -> occurs c a' = false ->
  a +:+ String c b = a' +:+ String c b' -> a = a' /\ b = b'.
Proof.
  revert a'. induction a as [|x a IH]; intros [|x' a'].
  - rewrite !append_empty_l. now intros _ _ [= ->].
  - rewrite append_empty_l, append_cons. cbn.
    intros _ [Hx _]%orb_false_elim [= <- _].
    now rewrite Ascii.eqb_refl in Hx.
  - rewrite append_empty_l, append_cons. cbn.
    intros [Hx _]%orb_false_elim _ [= -> _].
    now rewrite Ascii.eqb_refl in Hx.
  - rewrite !append_cons. cbn.
    intros [_ Ha]%orb_false_elim [_ Ha']%orb_false_elim [= -> Heq].
    destruct (IH a' Ha Ha' Heq) as [-> ->]. auto.
Qed.

(** The decimal digits are the only characters of [str(n)]. *)
Lemma str_of_nat_digits (c : ascii) (n : nat) :
  occurs c "0123456789" = false -> occurs c (str_of_nat n) = false.
Proof.
  intros Hc. unfold str_of_nat. generalize (Nat.to_uint n). intros d.
  cbn in Hc. repeat apply orb_false_elim in Hc as [? Hc].
  induction d as [|d IH|d IH|d IH|d IH|d IH|d IH|d IH|d IH|d IH|d IH];
    cbn; rewrite ?IH; [reflexivity | ..];
    rewrite orb_false_r; assumption.
Qed.

Lemma str_of_nat_inj (n n' : nat) : str_of_nat n = str_of_nat n' -> n = n'.
Proof.
  unfold str_of_nat. intros H. apply DecimalNat.Unsigned.to_uint_inj.
  pose proof (NilEmpty.usu (Nat.to_uint n)) as Hu. rewrite H in Hu.
  rewrite NilEmpty.usu in Hu. congruence.
Qed.

Example new_filename_6138_2 :
  str_of_nat 12 = "12" /\ new_filename "6138" 2 = "6138_2.txt".
Proof. split; reflexivity. Qed.

(** X18. [get_participant_id] never raises: it returns the part of the
    file name that stands before the first underscore, the whole name when
    there is none; what it returns holds no underscore. *)
Theorem get_participant_id_before_underscore (path_name : string -> string)
    (raw : string) :
  exists id,
    get_participant_id path_name raw = Ok id /\
    occurs "_" id = false /\
    (path_name raw = id \/
     exists rest, path_name raw = id +:+ "_" +:+ rest).
Proof.
  unfold get_participant_id, item.
  destruct (split_on_first "_" (path_name raw))
    as (tok & toks & Hs & Htok & Hshape).
  rewrite Hs. cbn. exists tok. auto.
Qed.

(** X19. A folder name that starts with ['study_result_'] always has a
    third token: [collect_data_files] takes as participant id what stands
    between that prefix and the next underscore (or the end of the name),
    does not raise [IndexError], and the id holds no underscore. *)
Theorem folder_participant_id_of_study_result (rest : string) :
  startswith ("study_result_" +:+ rest) "study_result_" = true /\
  exists id,
    folder_participant_id ("study_result_" +:+ rest) = Ok id /\
    occurs "_" id = false /\
    (rest = id \/ exists more, rest = id +:+ "_" +:+ more).
Proof.
  split.
  - unfold startswith.
    change ("study_result_" +:+ rest)
      with (String "s" (String "t" (String "u" (String "d" (String "y"
             (String "_" (String "r" (String "e" (String "s" (String "u"
             (String "l" (String "t" (String "_" rest))))))))))))).
    cbn. repeat (destruct (ascii_dec _ _); [|congruence]).
    destruct rest; reflexivity.
  - unfold folder_participant_id, item.
    change ("study_result_" +:+ rest)
      with ("study" +:+ String "_" ("result" +:+ String "_" rest)).
    rewrite !split_on_append.
    destruct (split_on_first "_" rest) as (tok & toks & Hs & Htok & Hshape).
    rewrite Hs. cbn. exists tok. auto.
Qed.

(** X20. The file name [collect_data_files] makes from a participant id
    and a component number tells them apart: two names are equal only for
    the same id and the same number, given ids without underscore (as the
    ids taken from folder names are). *)
Theorem new_filename_inj (participant_id participant_id' : string)
    (component_num component_num' : nat) :
  occurs "_" participant_id = false ->
  occurs "_" participant_id' = false ->
  new_filename participant_id component_num
  = new_filename participant_id' component_num' ->
  participant_id = participant_id' /\ component_num = component_num'.
Proof.
  unfold new_filename. intros Hp Hp' Heq.
  change ("_" +:+ str_of_nat component_num +:+ ".txt")
    with (String "_" (str_of_nat component_num +:+ String "." "txt")) in Heq.
  change ("_" +:+ str_of_nat component_num' +:+ ".txt")
    with (String "_" (str_of_nat component_num' +:+ String "." "txt")) in Heq.
  apply append_sep_inj in Heq as [-> Hnum]; [|assumption ..].
  apply append_sep_inj in Hnum as [Hnum _];
    [|now apply str_of_nat_digits ..].
  split; [reflexivity | now apply str_of_nat_inj].
Qed.

Lemma new_filename_inj_witness :
  "6138" = "6138" /\ 2%nat = 2%nat.
Proof.
  apply (new_filename_inj "6138" "6138" 2 2); reflexivity.
Defined.

(** X21. The id that [collect_data_files] writes into a file name is the
    id that [get_participant_id] reads back from the path of the file, for
    an id without underscore: in mouse_viz.py whenever [Path(raw).name] is
    that file name, and in the string-only form of mouse-viz.py for any
    directory in front, given an id without slash. *)
Theorem get_participant_id_of_new_filename (participant_id : string)
    (component_num : nat) :
  occurs "_" participant_id = false ->
  (forall path_name raw,
     path_name raw = new_filename participant_id component_num ->
     get_participant_id path_name raw = Ok participant_id) /\
  (occurs "/" participant_id = false ->
   forall dir,
     Earlier.get_participant_id
       (dir +:+ "/" +:+ new_filename participant_id component_num)
     = Ok participant_id).
Proof.
  intros Hu.
  assert (Hsplit : item (split_on "_"
                           (new_filename participant_id component_num)) 0
                   = Ok participant_id).
  { unfold new_filename, item.
    change ("_" +:+ str_of_nat component_num +:+ ".txt")
      with (String "_" (str_of_nat component_num +:+ ".txt")).
    rewrite split_on_append, (split_on_free "_" _ Hu). reflexivity. }
  split.
  - intros path_name raw Hname. unfold get_participant_id.
    now rewrite Hname.
  - intros Hs dir. unfold Earlier.get_participant_id.
    change ("/" +:+ new_filename participant_id component_num)
      with (String "/" (new_filename participant_id component_num)).
    rewrite split_on_append.
    assert (Hfree : occurs "/" (new_filename participant_id component_num)
                    = false).
    { unfold new_filename. rewrite !occurs_append, Hs.
      rewrite str_of_nat_digits by reflexivity. reflexivity. }
    rewrite (split_on_free "/" _ Hfree).
    unfold item_last. rewrite last_snoc. cbn. exact Hsplit.
Qed.

Lemma get_participant_id_of_new_filename_witness :
  Earlier.get_participant_id ("data/raw_data" +:+ "/" +:+ new_filename "6138" 2)
  = Ok "6138".
Proof.
  apply (get_participant_id_of_new_filename "6138" 2); reflexivity.
Defined.

(** * Properties of the computations of [plot_text_heatmap] *)

(** X22. The preview of the text put in the title of the heat map is the
    text itself when it has at most 40 characters (code points, as Python
    counts them), and otherwise its first 40 characters followed by three
    dots; so it never has more than 43 characters. *)
Theorem text_preview_bounded (text : list N) :
  (length (text_preview text) <= 43)%nat /\
  ((length text <= 40)%nat -> text_preview text = text) /\
  ((40 < length text)%nat ->
   length (text_preview text) = 43%nat /\
   exists head rest,
     length head = 40%nat /\ text = head ++ rest /\
     text_preview text = head ++ [46%N; 46%N; 46%N]).
Proof.
  unfold text_preview.
  destruct (40 <? length text)%nat eqn:Hlong.
  - apply Nat.ltb_lt in Hlong.
    assert (H40 : length (take 40 text) = 40%nat)
      by (rewrite length_take; lia).
    repeat split.
    + rewrite length_app, H40. cbn. lia.
    + lia.
    + rewrite length_app, H40. reflexivity.
    + exists (take 40 text), (drop 40 text).
      repeat split; [exact H40 | now rewrite take_drop].
  - apply Nat.ltb_ge in Hlong. repeat split; [lia | lia |].
    intros; lia.
Qed.

(** A text of 40 characters, one of them (233, e with acute accent) outside
    ASCII, is shown whole. *)
Lemma text_preview_bounded_witness :
  text_preview ([99%N; 97%N; 102%N; 233%N] ++ replicate 36 97%N)
  = [99%N; 97%N; 102%N; 233%N] ++ replicate 36 97%N.
Proof.
  apply (text_preview_bounded ([99%N; 97%N; 102%N; 233%N] ++ replicate 36 97%N)).
  cbn. lia.
Defined.

Lemma foldl_max_spec (d : Z) (rest : list Z) :
  foldl Z.max d rest ∈ d :: rest /\
  Forall (fun x => x <= foldl Z.max d rest) (d :: rest).
Proof.
  revert d. induction rest as [|x rest IH]; intros d; cbn.
  - split; [left | repeat constructor; lia].
  - destruct (IH (Z.max d x)) as [Hin Hall].
    apply Forall_cons_1 in Hall as [Hm Hall]. split.
    + apply elem_of_cons in Hin as [Heq | Hin]; [|now right; right].
      rewrite Heq. destruct (Z.max_spec d x) as [[_ ->] | [_ ->]];
        [right; left | left].
    + repeat constructor; [lia | lia | exact Hall].
Qed.

Lemma foldl_min_spec (d : Z) (rest : list Z) :
  foldl Z.min d rest ∈ d :: rest /\
  Forall (fun x => foldl Z.min d rest <= x) (d :: rest).
Proof.
  revert d. induction rest as [|x rest IH]; intros d; cbn.
  - split; [left | repeat constructor; lia].
  - destruct (IH (Z.min d x)) as [Hin Hall].
    apply Forall_cons_1 in Hall as [Hm Hall]. split.
    + apply elem_of_cons in Hin as [Heq | Hin]; [|now right; right].
      rewrite Heq. destruct (Z.min_spec d x) as [[_ ->] | [_ ->]];
        [left | right; left].
    + repeat constructor; [lia | lia | exact Hall].
Qed.

(** X23. For a table that is not empty, the range the heat map divides by
    is never 0: it is positive, and for every row the numerator
    [duration_ms - min_dur] lies between 0 and that range, so that the
    normalised duration lies between 0 and 1. *)
Theorem dur_range_normalises (column : list Z) (max_dur min_dur : Z) :
  column_max column = Some max_dur ->
  column_min column = Some min_dur ->
  0 < dur_range max_dur min_dur /\
  Forall (fun d => 0 <= d - min_dur <= dur_range max_dur min_dur) column.
Proof.
  destruct column as [|d rest]; [discriminate|].
  cbn. intros [= <-] [= <-].
  destruct (foldl_max_spec d rest) as [Hmax_in Hmax].
  destruct (foldl_min_spec d rest) as [Hmin_in Hmin].
  set (M := foldl Z.max d rest) in *. set (m := foldl Z.min d rest) in *.
  assert (Hle : m <= M).
  { rewrite Forall_forall in Hmax. specialize (Hmax _ Hmin_in). exact Hmax. }
  unfold dur_range. destruct (M =? m) eqn:Heq; cbn.
  - apply Z.eqb_eq in Heq. split; [lia|].
    rewrite Forall_forall in Hmax, Hmin. apply Forall_forall.
    intros x Hx. specialize (Hmax x Hx). specialize (Hmin x Hx). lia.
  - apply Z.eqb_neq in Heq. split; [lia|].
    rewrite Forall_forall in Hmax, Hmin. apply Forall_forall.
    intros x Hx. specialize (Hmax x Hx). specialize (Hmin x Hx). lia.
Qed.

Lemma dur_range_normalises_witness :
  0 < dur_range 500 0 /\
  Forall (fun d => 0 <= d - 0 <= dur_range 500 0) [100; 500; 0].
Proof.
  apply (dur_range_normalises [100; 500; 0] 500 0); reflexivity.
Defined.

(** X24. In the heat map of a table made from the boxes of
    [get_word_positions], the rectangles of words on different lines do not
    overlap: the rectangle of a word higher up ends above the top of the
    rectangle of any word further down. *)
Theorem heatmap_rects_of_lines_disjoint text canvas_width font
    horizontal_padding vertical_padding_top line_height
    (table : list DurationRow) (r r' : DurationRow) :
  Forall2 row_of_box table
    (get_word_positions text canvas_width font
       horizontal_padding vertical_padding_top line_height) ->
  r ∈ table -> r' ∈ table ->
  (row_line_number r < row_line_number r')%nat ->
  let '(_, y, _, h) := heatmap_rect r in
  let '(_, y', _, _) := heatmap_rect r' in
  y + h < y'.
Proof.
  intros Hrows Hr Hr' Hlines.
  assert (Hy : forall row, row ∈ table ->
                 row_y_position row
                 = vertical_padding_top + 10
                   + Z.of_nat (row_line_number row) * LINE_HEIGHT).
  { intros row Hrow.
    destruct (proj1 (list_elem_of_lookup _ _) Hrow) as [i Hi].
    destruct (Forall2_lookup_l _ _ _ _ _ Hrows Hi) as (b & Hb & Hrb).
    destruct Hrb as (_ & _ & _ & _ & -> & ->).
    eapply get_word_positions_y_position, list_elem_of_lookup_2, Hb. }
  unfold heatmap_rect. rewrite (Hy r Hr), (Hy r' Hr').
  unfold LINE_HEIGHT. lia.
Qed.

Lemma heatmap_rects_of_lines_disjoint_witness :
  30 - 20 + 24 < 55 - 20.
Proof.
  refine (heatmap_rects_of_lines_disjoint "aa bb" 60 (fixed_width_font 10)
            30 20 25
            [zero_row (box_at "aa" 0 15 35 30 0);
             zero_row (box_at "bb" 1 15 35 55 1)]
            (zero_row (box_at "aa" 0 15 35 30 0))
            (zero_row (box_at "bb" 1 15 35 55 1)) _ _ _ _).
  - repeat constructor.
  - apply list_elem_of_here.
  - apply list_elem_of_further, list_elem_of_here.
  - cbn. lia.
Defined.

(** * The layout of a single word, and the layout followed by the
    aggregation *)

Lemma split_space_free (s : string) :
  occurs " " s = false -> split_space s = [s].
Proof.
  induction s as [|c s IH]; [reflexivity|].
  cbn. intros [Hc Hs]%orb_false_elim. rewrite Hc, IH by exact Hs.
  reflexivity.
Qed.

(** X25. A text without a space is never broken, however wide it is: it
    gets exactly one box, on line 0, from the left margin
    [horizontal_padding // 2] over the full width of the text, at
    [y = vertical_padding_top + 10]. *)
Theorem get_word_positions_single_word text canvas_width font
    horizontal_padding vertical_padding_top line_height :
  occurs " " text = false ->
  get_word_positions text canvas_width font
    horizontal_padding vertical_padding_top line_height
  = [ {| word := text; word_index := 0;
         x_start := horizontal_padding / 2;
         x_end := horizontal_padding / 2 + text_width font text;
         y_position := vertical_padding_top + 10;
         line_index := 0 |} ].
Proof.
  intros Hfree. unfold get_word_positions. cbv zeta.
  rewrite split_space_free by exact Hfree.
  cbn [fold_left]. unfold place_word. cbn [current_line_text truthy].
  rewrite andb_false_r. cbn. do 2 f_equal. unfold LINE_HEIGHT. lia.
Qed.

Lemma get_word_positions_single_word_witness :
  get_word_positions "extraordinarily" 50 (fixed_width_font 10) 30 20 25
  = [ {| word := "extraordinarily"; word_index := 0;
         x_start := 30 / 2;
         x_end := 30 / 2
                  + text_width (fixed_width_font 10) "extraordinarily";
         y_position := 20 + 10;
         line_index := 0 |} ].
Proof.
  apply (get_word_positions_single_word "extraordinarily" 50
           (fixed_width_font 10) 30 20 25).
  reflexivity.
Defined.

(** X26. The aggregation accepts whatever the layout produces: given the
    boxes of [get_word_positions] for any text, canvas and font, and a
    frame with a row that has samples, [compute_word_durations] returns a
    table, never a [KeyError]; the table lists the tokens of the text in
    order, numbered from 0, with line numbers that never decrease and
    durations that are not negative. *)
Theorem compute_word_durations_of_get_word_positions
    (df_reading : list Trial) tracking text canvas_width font
    horizontal_padding vertical_padding_top line_height
    canvas_width' text' x_tolerance y_tolerance :
  get_mouse_data df_reading 0 = Ok tracking ->
  exists table,
    compute_word_durations df_reading (Some canvas_width') (Some text')
      (Some (get_word_positions text canvas_width font
               horizontal_padding vertical_padding_top line_height))
      x_tolerance y_tolerance = Ok table /\
    map row_word table = split_space text /\
    map row_word_number table = seq 0 (length table) /\
    StronglySorted le (map row_line_number table) /\
    Forall (fun r => 0 <= row_duration_ms r) table.
Proof.
  intros Hfetch. unfold compute_word_durations. rewrite Hfetch. cbn.
  set (boxes := get_word_positions text canvas_width font
                  horizontal_padding vertical_padding_top line_height).
  rewrite word_durations_table_dwell by apply get_word_positions_numbered.
  eexists. split; [reflexivity|].
  destruct (get_word_positions_tokens text canvas_width font
              horizontal_padding vertical_padding_top line_height)
    as (Hws & Hidx & _).
  fold boxes in Hws, Hidx.
  rewrite !map_map, length_map. cbn [dwell_row row_word row_word_number
                                    row_line_number].
  repeat split; [exact Hws | exact Hidx | |].
  - subst boxes. unfold get_word_positions. cbv zeta.
    match goal with |- context [fold_left ?f ?ws ?st] =>
      destruct (layout_loop_invariant font (horizontal_padding / 2)
                  (vertical_padding_top + 10)
                  (canvas_width - horizontal_padding) ws st)
        as (new & -> & _ & _ & _ & Hsort)
    end.
    exact Hsort.
  - apply Forall_fmap, Forall_forall. intros wp _. cbn.
    generalize (intervals tracking). intros pairs.
    induction pairs as [|pq pairs IH]; [cbn; lia|].
    unfold dwell_of in *. cbn [foldr].
    assert (0 <= contribution boxes x_tolerance y_tolerance
                   (word_index wp) pq).
    { unfold contribution. destruct (valid_interval pq) eqn:Hv; [|lia].
      case_decide; [|lia]. destruct pq as [p q].
      apply valid_interval_spec in Hv. unfold interval_dt. cbn. lia. }
    lia.
Qed.

Lemma compute_word_durations_of_get_word_positions_witness :
  exists table,
    compute_word_durations
      [trial_with [sample_at 20 25 0; sample_at 20 25 500]]
      (Some 200) (Some "the cat sat")
      (Some (get_word_positions "the cat sat" 200 (fixed_width_font 10)
               30 20 25)) 5 15 = Ok table /\
    map row_word table = ["the"; "cat"; "sat"].
Proof.
  destruct (compute_word_durations_of_get_word_positions
              [trial_with [sample_at 20 25 0; sample_at 20 25 500]]
              [sample_at 20 25 0; sample_at 20 25 500]
              "the cat sat" 200 (fixed_width_font 10) 30 20 25
              200 "the cat sat" 5 15 eq_refl)
    as (table & Ht & Hwords & _).
  exists table. split; [exact Ht | exact Hwords].
Defined.

(** * Properties of [load_font] *)

(** X27. [load_font] returns the font of the first of its six paths, in
    the order they are listed, that [ImageFont.truetype] can open, whatever
    the later paths give, and the default font exactly when none of the six
    can be opened. *)
Theorem load_font_first_loadable (truetype : string -> Z -> option Font)
    (load_default : Font) (size : Z) :
  (forall pre path post font,
     font_paths = pre ++ path :: post ->
     Forall (fun p => truetype p size = None) pre ->
     truetype path size = Some font ->
     load_font truetype load_default size = font) /\
  (Forall (fun p => truetype p size = None) font_paths ->
   load_font truetype load_default size = load_default).
Proof.
  unfold load_font. generalize font_paths. intros paths. split.
  - intros pre path post font -> Hpre Hpath.
    induction Hpre as [|p pre Hp _ IH]; cbn.
    + now rewrite Hpath.
    + now rewrite Hp.
  - induction 1 as [|p rest Hp _ IH]; cbn; [reflexivity|].
    now rewrite Hp.
Qed.

Lemma load_font_first_loadable_witness :
  load_font
    (fun path _ =>
       if String.eqb path "/usr/share/fonts/truetype/dejavu/DejaVuSans.ttf"
       then Some (fixed_width_font 10)
       else if String.eqb path "/Library/Fonts/Arial.ttf"
            then Some (fixed_width_font 12) else None)
    (fixed_width_font 6) 18
  = fixed_width_font 10.
Proof.
  refine (proj1 (load_font_first_loadable _ (fixed_width_font 6) 18)
            [ "arial.ttf"; "C:/Windows/Fonts/arial.ttf";
              "/usr/share/fonts/truetype/msttcorefonts/Arial.ttf" ]
            "/usr/share/fonts/truetype/dejavu/DejaVuSans.ttf"
            [ "/System/Library/Fonts/Helvetica.ttc";
              "/Library/Fonts/Arial.ttf" ]
            (fixed_width_font 10) eq_refl _ eq_refl).
  repeat constructor.
Defined.

(** * The text behind the boxes *)

Lemma split_space_nonempty (s : string) : split_space s <> [].
Proof.
  intros H. pose proof (split_space_length s) as Hl. rewrite H in Hl.
  discriminate.
Qed.

Lemma join_space_cons (tok : string) (rest : list string) :
  rest <> [] ->
  join_space (tok :: rest) = tok +:+ String " " (join_space rest).
Proof. destruct rest; [congruence | reflexivity]. Qed.

Lemma join_space_head (c : ascii) (tok : string) (rest : list string) :
  join_space (String c tok :: rest) = String c (join_space (tok :: rest)).
Proof. destruct rest; reflexivity. Qed.

Lemma join_split_space (s : string) : join_space (split_space s) = s.
Proof.
  induction s as [|c s IH]; [reflexivity|].
  cbn [split_space]. destruct (Ascii.eqb c " ") eqn:Hc.
  - apply Ascii.eqb_eq in Hc as ->.
    rewrite join_space_cons by apply split_space_nonempty.
    now rewrite IH, append_empty_l.
  - destruct (split_space s) as [|tok toks] eqn:Hs;
      [now apply split_space_nonempty in Hs|].
    now rewrite join_space_head, IH.
Qed.

(** X28. The layout loses nothing of the text: the words of the boxes of
    [get_word_positions], joined by single spaces in box order, are the
    text again, for any canvas width and font. *)
Theorem get_word_positions_words_rebuild_text text canvas_width font
    horizontal_padding vertical_padding_top line_height :
  join_space
    (map word
       (get_word_positions text canvas_width font
          horizontal_padding vertical_padding_top line_height))
  = text.
Proof.
  destruct (get_word_positions_tokens text canvas_width font
              horizontal_padding vertical_padding_top line_height)
    as (Hws & _).
  rewrite Hws. apply join_split_space.
Qed.
